(** * Stock financials scraper: a shallow embedding and its properties

    The program reads a table with a ['Stock Name'] column, maps each name
    to a Yahoo Finance symbol and a Screener identifier, fetches price and
    market capitalisation from the first and P/E ratio and interest expense
    from the HTML of the second, and merges everything row by row.

    The embedding follows the Python source: [str] values are lists of code
    points, [float] values are IEEE 754 binary64 numbers ([spec_float] with
    the rounding written out), dictionaries with a fixed key set are records,
    [SYMBOL_MAP] and the quote snapshot are finite maps, the DOM is a rose
    tree queried through the few BeautifulSoup calls the program makes, and
    [try]/[except] is an explicit result type. *)

From Stdlib Require Import Ascii String DecimalString.
From Stdlib Require Import ZArith NArith Lia Bool Floats.
From stdpp Require Import base option list gmap.

Local Open Scope Z_scope.
Set Warnings "-inexact-float,-register-all".

(** ** Python strings *)

(** A [str] is a sequence of Unicode code points. *)
Abbreviation pystr := (list N).

(** An ASCII literal of the source, as code points. *)
Definition lit (s : string) : pystr :=
  List.map N_of_ascii (list_ascii_of_string s).
Arguments lit s%_string.

Module Ch.
Definition tab : N := 9.
Definition newline : N := 10.
Definition space : N := 32.
Definition percent : N := 37.
Definition ampersand : N := 38.
Definition comma : N := 44.
Definition hyphen : N := 45.
Definition plus : N := 43.
Definition dot : N := 46.
(** U+20B9 INDIAN RUPEE SIGN *)
Definition rupee : N := 8377.
(** U+00A0 NO-BREAK SPACE *)
Definition nbsp : N := 160.
End Ch.

(** [str.isspace] on one code point: the ASCII table of the interpreter
    (9-13, 28-32) and the Unicode White_Space/bidirectional-separator set. *)
Definition isspace (c : N) : bool :=
  ((9 <=? c) && (c <=? 13) || (28 <=? c) && (c <=? 32)
   || (c =? 133) || (c =? 160) || (c =? 5760)
   || (8192 <=? c) && (c <=? 8202)
   || (c =? 8232) || (c =? 8233) || (c =? 8239) || (c =? 8287)
   || (c =? 12288))%N.

Fixpoint lstrip (s : pystr) : pystr :=
  match s with
  | c :: r => if isspace c then lstrip r else s
  | [] => []
  end.

Definition rstrip (s : pystr) : pystr := rev (lstrip (rev s)).

(** [s.strip()] *)
Definition strip (s : pystr) : pystr := rstrip (lstrip s).

(** [s.replace(old, new)] for a one-character [old], the only form the
    program uses. *)
Fixpoint replace (old : N) (new : pystr) (s : pystr) : pystr :=
  match s with
  | [] => []
  | c :: r => (if (c =? old)%N then new else [c]) ++ replace old new r
  end.

Fixpoint startswith (p s : pystr) : bool :=
  match p, s with
  | [], _ => true
  | a :: p', b :: s' => (a =? b)%N && startswith p' s'
  | _ :: _, [] => false
  end.

(** [p in s] for strings: [p] occurs as a contiguous substring. *)
Fixpoint contains (p s : pystr) : bool :=
  startswith p s ||
  match s with
  | [] => false
  | _ :: r => contains p r
  end.

(** ** What the interpreter brings along

    The Unicode character database and a few library routines are not part
    of the repository. The ASCII range is written out below; the rest is an
    interface. *)
Class PyRuntime := {
  (** full upper-case mapping of a code point above U+007F *)
  uni_upper : N -> pystr;
  uni_upper_nonempty : forall c, uni_upper c <> [];
  (** decimal digit value of a code point above U+007F in category Nd *)
  uni_decimal : N -> option N;
  uni_decimal_not_space : forall c d, uni_decimal c = Some d -> isspace c = false;
  (** [repr] of a finite non-zero float *)
  float_repr : spec_float -> pystr;
  (** [re.search(r'\b' + re.escape(label) + r'\b', text, re.IGNORECASE)] *)
  re_word_search : pystr -> pystr -> bool
}.

Section Strings.
Context {RT : PyRuntime}.

Definition upper_char (c : N) : pystr :=
  if (c <? 128)%N then
    [if (97 <=? c)%N && (c <=? 122)%N then (c - 32)%N else c]
  else uni_upper c.

(** [s.upper()] *)
Definition upper (s : pystr) : pystr := flat_map upper_char s.

(** Digit value of a character matched by [\d]. *)
Definition decimal (c : N) : option N :=
  if (c <? 128)%N then
    if (48 <=? c)%N && (c <=? 57)%N then Some (c - 48)%N else None
  else uni_decimal c.

Definition isdecimal (c : N) : bool :=
  match decimal c with Some _ => true | None => false end.
End Strings.

(** ** Python floats

    A [float] is a binary64 number. Conversions from integers and decimal
    literals and [int / int] are correctly rounded (to nearest, ties to
    even); the rounding is written out on exact fractions. *)
Module Float.
Abbreviation float := spec_float.

(** Round half to even of the fraction [a / b], for [0 <= a] and [0 < b]. *)
Definition rne (a b : Z) : Z :=
  let q := a / b in
  match 2 * (a mod b) ?= b with
  | Lt => q
  | Eq => if Z.even q then q else q + 1
  | Gt => q + 1
  end.

(** [rne] of [(a / b) / 2^e]. *)
Definition scaled_rne (a b e : Z) : Z :=
  if 0 <=? e then rne a (b * 2 ^ e) else rne (a * 2 ^ (- e)) b.

(** [floor (log2 (a / b))] for positive [a] and [b]. *)
Definition floor_log2 (a b : Z) : Z :=
  let l := Z.log2 a - Z.log2 b in
  if (if 0 <=? l then b * 2 ^ l <=? a else b <=? a * 2 ^ (- l))
  then l else l - 1.

(** Exponent of the last place of the binary64 numbers around [a / b]. *)
Definition ulp_exp (a b : Z) : Z := Z.max (floor_log2 a b - 52) (-1074).

(** The binary64 number nearest to [(-1)^neg * a / b], for [0 <= a] and
    [0 < b]; infinite when the rounded value leaves the range. *)
Definition nearest (neg : bool) (a b : Z) : float :=
  if a =? 0 then S754_zero neg else
  let e := ulp_exp a b in
  let m := scaled_rne a b e in
  if m =? 0 then S754_zero neg else
  let '(m, e) := if m =? 2 ^ 53 then (2 ^ 52, e + 1) else (m, e) in
  if 971 <? e then S754_infinity neg else S754_finite neg (Z.to_pos m) e.

(** [a / b] on two [int]s: [None] stands for the [ZeroDivisionError] or
    [OverflowError] the interpreter raises. *)
Definition int_truediv (a b : Z) : option float :=
  if b =? 0 then None else
  match nearest (xorb (a <? 0) (b <? 0)) (Z.abs a) (Z.abs b) with
  | S754_infinity _ => None
  | q => Some q
  end.

(** [float(n)] for an [int]; [None] is [OverflowError]. *)
Definition of_int (n : Z) : option float := int_truediv n 1.

(** [x / y] on two floats, [y] non-zero. *)
Definition div (x y : float) : float := SFdiv prec emax x y.

(** [round(x, 2)]: the exact value of [x] is rounded half-even to a
    multiple of 1/100, and that decimal is converted back. *)
Definition round2 (x : float) : float :=
  match x with
  | S754_finite s m e =>
      let k := if 0 <=? e then 100 * Z.pos m * 2 ^ e
               else rne (100 * Z.pos m) (2 ^ (- e)) in
      nearest s k 100
  | _ => x
  end.

(** Strict order on floats ([x < y] in Python). *)
Definition ltb (x y : float) : bool := SFltb x y.
End Float.

Section FloatParsing.
Context {RT : PyRuntime}.

(** Longest prefix of decimal digits, as digit values, and the rest. *)
Fixpoint span_digits (s : pystr) : list N * pystr :=
  match s with
  | [] => ([], [])
  | c :: r =>
      match decimal c with
      | Some d => let '(ds, rest) := span_digits r in (d :: ds, rest)
      | None => ([], s)
      end
  end.

(** Value of a digit sequence, most significant first. *)
Definition digits_value (ds : list N) : Z :=
  fold_left (fun acc d => 10 * acc + Z.of_N d) ds 0.

(** [float(s)] on plain decimal literals: optional surrounding white
    space, optional sign, digits with an optional point. [None] outside
    this fragment (exponents, [inf], [nan], underscores are not modelled). *)
Definition py_float (s : pystr) : option Float.float :=
  let s := strip s in
  let '(neg, s) :=
    match s with
    | c :: r => if (c =? Ch.hyphen)%N then (true, r)
                else if (c =? Ch.plus)%N then (false, r) else (false, s)
    | [] => (false, s)
    end in
  let '(ip, r) := span_digits s in
  match r with
  | [] =>
      match ip with
      | [] => None
      | _ => Some (Float.nearest neg (digits_value ip) 1)
      end
  | c :: r' =>
      if (c =? Ch.dot)%N then
        let '(fp, r'') := span_digits r' in
        match r'', ip ++ fp with
        | [], _ :: _ =>
            Some (Float.nearest neg (digits_value (ip ++ fp))
                    (10 ^ Z.of_nat (length fp)))
        | _, _ => None
        end
      else None
  end.
End FloatParsing.


(** ** Regular expressions

    The one pattern of the program, [^-?\d+(\.\d+)?$], is kept as syntax and
    matched by derivatives. *)
Module Re.
Inductive regex :=
| Empty
| Eps
| Chr (c : N)
| Digit
| Cat (r1 r2 : regex)
| Alt (r1 r2 : regex)
| Star (r : regex).

(** [r?] and [r+] *)
Definition Opt (r : regex) : regex := Alt Eps r.
Definition Plus (r : regex) : regex := Cat r (Star r).

Fixpoint nullable (r : regex) : bool :=
  match r with
  | Empty | Chr _ | Digit => false
  | Eps | Star _ => true
  | Cat r1 r2 => nullable r1 && nullable r2
  | Alt r1 r2 => nullable r1 || nullable r2
  end.
End Re.

Section Regex.
Context {RT : PyRuntime}.
Import Re.

Fixpoint deriv (c : N) (r : regex) : regex :=
  match r with
  | Empty | Eps => Empty
  | Chr d => if (c =? d)%N then Eps else Empty
  | Digit => if isdecimal c then Eps else Empty
  | Cat r1 r2 =>
      if nullable r1 then Alt (Cat (deriv c r1) r2) (deriv c r2)
      else Cat (deriv c r1) r2
  | Alt r1 r2 => Alt (deriv c r1) (deriv c r2)
  | Star r1 => Cat (deriv c r1) (Star r1)
  end.

(** The whole of [s] is matched by [r]. *)
Fixpoint fullmatch (r : regex) (s : pystr) : bool :=
  match s with
  | [] => nullable r
  | c :: s' => fullmatch (deriv c r) s'
  end.

(** [re.match('^' r '$', s)] without flags: [$] holds at the end of the
    string and just before a newline that ends the string. *)
Definition re_match_anchored (r : regex) (s : pystr) : bool :=
  fullmatch r s ||
  match rev s with
  | c :: t => (c =? Ch.newline)%N && fullmatch r (rev t)
  | [] => false
  end.

(** [-?\d+(\.\d+)?] *)
Definition numeric_pattern : regex :=
  Cat (Opt (Chr Ch.hyphen))
      (Cat (Plus Digit) (Opt (Cat (Chr Ch.dot) (Plus Digit)))).

(** [re.match(r'^-?\d+(\.\d+)?$', value)] as a truth value. *)
Definition is_valid_number (value : pystr) : bool :=
  re_match_anchored numeric_pattern value.
End Regex.

(** ** Python values and exceptions *)

Inductive pyval :=
| PyNone
| PyBool (b : bool)
| PyInt (n : Z)
| PyFloat (x : Float.float)
| PyStr (s : pystr).

(** The marker ["N/A"]. *)
Definition NA : pyval := PyStr (lit "N/A").

(** A raised exception, by the name of its class. *)
Inductive exn := PyExc (cls : string).
Arguments PyExc cls%_string.

Inductive result (A : Type) :=
| Ok (a : A)
| Raise (e : exn).
Arguments Ok {A} a.
Arguments Raise {A} e.

#[global] Instance result_ret : MRet result := fun A a => Ok a.
#[global] Instance result_bind : MBind result := fun A B f m =>
  match m with
  | Ok a => f a
  | Raise e => Raise e
  end.

Section Str.
Context {RT : PyRuntime}.

(** [str(v)] *)
Definition py_str (v : pyval) : pystr :=
  match v with
  | PyNone => lit "None"
  | PyBool true => lit "True"
  | PyBool false => lit "False"
  | PyInt n => lit (NilZero.string_of_int (Z.to_int n))
  | PyFloat S754_nan => lit "nan"
  | PyFloat (S754_infinity false) => lit "inf"
  | PyFloat (S754_infinity true) => lit "-inf"
  | PyFloat (S754_zero false) => lit "0.0"
  | PyFloat (S754_zero true) => lit "-0.0"
  | PyFloat x => float_repr x
  | PyStr s => s
  end.

(** [float(value) if re.match(...) else "N/A"], the tail of both parsers;
    [float] raises [ValueError] on what it cannot read. *)
Definition float_or_na (value : pystr) : result pyval :=
  if is_valid_number value then
    match py_float value with
    | Some x => Ok (PyFloat x)
    | None => Raise (PyExc "ValueError")
    end
  else Ok NA.

(** Normalisation of a ratio value (source line 62). *)
Definition clean_ratio_value (text : pystr) : pystr :=
  replace Ch.comma [] (replace Ch.percent [] (replace Ch.rupee [] (strip text))).

(** Normalisation of a statement cell (source line 34). *)
Definition clean_table_value (text : pystr) : pystr :=
  replace Ch.space [] (replace Ch.hyphen [] (replace Ch.comma [] (strip text))).

(** Normalisation of a ratio label (source line 61). *)
Definition clean_ratio_name (text : pystr) : pystr :=
  upper (replace Ch.newline [Ch.space] (strip text)).
End Str.

(** ** The BeautifulSoup calls the program makes

    Every call may raise; what it returns is the library's business. A CSS
    selector is kept in the two shapes the program writes. *)
Record simple_sel := {
  sel_name : pystr;
  sel_id : option pystr;
  sel_class : option pystr
}.

Inductive selector :=
| SelChild (par child : simple_sel)     (* [A > B] *)
| SelDesc (anc desc : simple_sel).      (* [A B] *)

Class Soup (markup tag : Type) := {
  (** [BeautifulSoup(content, 'html.parser')] *)
  BeautifulSoup : markup -> result tag;
  (** [t.select_one(selector)] *)
  select_one : tag -> selector -> result (option tag);
  (** [t.find_all(name)] *)
  find_all : tag -> pystr -> result (list tag);
  (** [t.find(name, class_=cls)] *)
  find_class : tag -> pystr -> pystr -> result (option tag);
  (** [t.find(name, string=re.compile(r'\b' + re.escape(label) + r'\b',
      re.IGNORECASE))] *)
  find_string : tag -> pystr -> pystr -> result (option tag);
  (** [t.parent] *)
  parent : tag -> result (option tag);
  (** [t.text] *)
  text : tag -> result pystr
}.

(** [div.company-ratios > ul] *)
Definition ratio_list_selector : selector :=
  SelChild {| sel_name := lit "div"; sel_id := None;
              sel_class := Some (lit "company-ratios") |}
           {| sel_name := lit "ul"; sel_id := None; sel_class := None |}.

(** [f'section#{table_id} table'], read as the selector it spells when
    [table_id] is a CSS identifier, as is ['profit-loss'], the one id the
    program passes. For another text the library parses something else, or
    raises [SelectorSyntaxError]: nothing below is stated about such a
    text on a parsed document. *)
Definition table_selector (table_id : pystr) : selector :=
  SelDesc {| sel_name := lit "section"; sel_id := Some table_id;
             sel_class := None |}
          {| sel_name := lit "table"; sel_id := None; sel_class := None |}.

(** The dictionary [data] of [scrape_screener_data_minimal]: its two keys
    are fixed. *)
Record screener_data := {
  pe_ratio : pyval;          (* data["P/E Ratio"] *)
  interest_cr : pyval        (* data["Interest (Cr.)"] *)
}.

Section Extraction.
Context {RT : PyRuntime} {markup tag : Type} {lib : Soup markup tag}.

(** Body of the [try] of [extract_table_value]. *)
Definition extract_table_value_body (soup : tag) (table_id row_name : pystr)
  : result pyval :=
  table ← select_one soup (table_selector table_id);
  match table with
  | None => Ok NA
  | Some table =>
      row_td ← find_string table (lit "td") row_name;
      match row_td with
      | None => Ok NA
      | Some row_td =>
          row ← parent row_td;
          match row with
          | None => Raise (PyExc "AttributeError")
          | Some row =>
              data_cols ← find_all row (lit "td");
              match last data_cols with
              | None => Ok NA
              | Some cell =>
                  t ← text cell;
                  float_or_na (clean_table_value t)
              end
          end
      end
  end.

(** [extract_table_value(soup, table_id, row_name)]: [except Exception]
    turns every fault into ["N/A"]. *)
Definition extract_table_value (soup : tag) (table_id row_name : pystr)
  : pyval :=
  match extract_table_value_body soup table_id row_name with
  | Ok v => v
  | Raise _ => NA
  end.

(** One turn of the loop over the [li] entries (source lines 58-65), as a
    function of the current [data["P/E Ratio"]]. *)
Definition ratio_entry (li : tag) (pe : pyval) : result pyval :=
  name_tag ← find_class li (lit "span") (lit "name");
  value_tag ← find_class li (lit "span") (lit "value");
  match name_tag, value_tag with
  | Some name_tag, Some value_tag =>
      name_text ← text name_tag;
      value_text ← text value_tag;
      let name := clean_ratio_name name_text in
      let value := clean_ratio_value value_text in
      if contains (lit "P/E") name then float_or_na value else Ok pe
  | _, _ => Ok pe
  end.

(** The [for] loop: the entry that raises ends it, and what was assigned
    before stays assigned. *)
Fixpoint ratio_loop (summary_points : list tag) (pe : pyval)
  : pyval * option exn :=
  match summary_points with
  | [] => (pe, None)
  | li :: rest =>
      match ratio_entry li pe with
      | Ok pe' => ratio_loop rest pe'
      | Raise e => (pe, Some e)
      end
  end.

(** Source lines 54-65. *)
Definition extract_ratio (soup : tag) (pe : pyval) : pyval * option exn :=
  match select_one soup ratio_list_selector with
  | Raise e => (pe, Some e)
  | Ok None => (pe, None)
  | Ok (Some ratio_list_ul) =>
      match find_all ratio_list_ul (lit "li") with
      | Raise e => (pe, Some e)
      | Ok summary_points => ratio_loop summary_points pe
      end
  end.

(** Source lines 53-68, inside the [try]: the interest row is read only
    when the P/E part ran to its end. *)
Definition scrape_soup (soup : tag) (data : screener_data) : screener_data :=
  match extract_ratio soup (pe_ratio data) with
  | (pe, Some _) => {| pe_ratio := pe; interest_cr := interest_cr data |}
  | (pe, None) =>
      {| pe_ratio := pe;
         interest_cr :=
           extract_table_value soup (lit "profit-loss") (lit "Interest") |}
  end.
End Extraction.

(** ** The HTTP request *)

Record request := {
  url : pystr;
  headers : list (pystr * pystr);
  timeout : Z
}.

(** What [requests.get] does: raise, or return a response. *)
Inductive http_outcome (markup : Type) :=
| HttpRaise (e : exn)
| HttpResponse (status_code : Z) (content : markup).
Arguments HttpRaise {markup} e.
Arguments HttpResponse {markup} status_code content.

(** [response.raise_for_status()] *)
Definition raise_for_status (status_code : Z) : result unit :=
  if (400 <=? status_code) && (status_code <? 600)
  then Raise (PyExc "HTTPError") else Ok tt.

Definition screener_url (screener_name : pystr) : pystr :=
  let formatted_name :=
    replace Ch.ampersand (lit "%26") (replace Ch.space (lit "-") screener_name) in
  lit "https://www.screener.in/company/" ++ formatted_name
    ++ lit "/consolidated/".

Definition screener_request (screener_name : pystr) : request :=
  {| url := screener_url screener_name;
     headers := [(lit "User-Agent", lit "Mozilla/5.0")];
     timeout := 10 |}.

Definition no_data : screener_data := {| pe_ratio := NA; interest_cr := NA |}.

Section Scrape.
Context {RT : PyRuntime} {markup tag : Type} {lib : Soup markup tag}.

(** The [try] of [scrape_screener_data_minimal] once [requests.get] has
    answered. *)
Definition scrape_outcome (o : http_outcome markup) : screener_data :=
  match o with
  | HttpRaise _ => no_data
  | HttpResponse status_code content =>
      match raise_for_status status_code with
      | Raise _ => no_data
      | Ok _ =>
          match BeautifulSoup content with
          | Raise _ => no_data
          | Ok soup => scrape_soup soup no_data
          end
      end
  end.

(** [scrape_screener_data_minimal(stock_name, screener_name)], given the
    network as a function of the request; the request made is returned with
    the data. *)
Definition scrape_screener_data_minimal
    (requests_get : request -> http_outcome markup)
    (stock_name screener_name : pystr) : screener_data * request :=
  let r := screener_request screener_name in
  (scrape_outcome (requests_get r), r).
End Scrape.

(** ** A parsed document

    The reference implementation of the interface: a tree of elements and
    text nodes, an element being addressed by its path from the root. None
    of its operations raises. *)
Module Dom.
Inductive node :=
| Text (s : pystr)
| Elem (name : pystr) (id : option pystr) (classes : list pystr)
       (kids : list node).

Record tag := { doc : node; path : list nat }.

(** The document object [BeautifulSoup] returns, above the top-level nodes. *)
Definition document (kids : list node) : node :=
  Elem (lit "[document]") None [] kids.

Fixpoint at_path (n : node) (p : list nat) : option node :=
  match p with
  | [] => Some n
  | i :: p' =>
      match n with
      | Text _ => None
      | Elem _ _ _ kids =>
          match kids !! i with
          | Some k => at_path k p'
          | None => None
          end
      end
  end.

Definition node_of (t : tag) : node :=
  default (Text []) (at_path (doc t) (path t)).

(** All nodes below [n], in document order, with their paths; [p] is the
    path of [n]. *)
Fixpoint descendants (p : list nat) (n : node) : list (list nat * node) :=
  match n with
  | Text _ => []
  | Elem _ _ _ kids =>
      (fix go (i : nat) (ks : list node) : list (list nat * node) :=
         match ks with
         | [] => []
         | k :: ks' =>
             (p ++ [i], k) :: descendants (p ++ [i]) k ++ go (S i) ks'
         end) 0%nat kids
  end.

(** [t.text]: the text nodes below, concatenated. *)
Fixpoint get_text (n : node) : pystr :=
  match n with
  | Text s => s
  | Elem _ _ _ kids => flat_map get_text kids
  end.

(** [t.string]: defined when the node has a single line of descent down to
    one text node. *)
Fixpoint node_string (n : node) : option pystr :=
  match n with
  | Text s => Some s
  | Elem _ _ _ [k] => node_string k
  | Elem _ _ _ _ => None
  end.

Definition pystr_eqb (a b : pystr) : bool := bool_decide (a = b).

Definition has_name (nm : pystr) (n : node) : bool :=
  match n with
  | Elem name _ _ _ => pystr_eqb name nm
  | Text _ => false
  end.

Definition has_class (cls : pystr) (n : node) : bool :=
  match n with
  | Elem _ _ classes _ => existsb (pystr_eqb cls) classes
  | Text _ => false
  end.

Definition has_id (i : pystr) (n : node) : bool :=
  match n with
  | Elem _ (Some j) _ _ => pystr_eqb i j
  | _ => false
  end.

Definition matches_simple (s : simple_sel) (n : node) : bool :=
  has_name (sel_name s) n
  && match sel_id s with Some i => has_id i n | None => true end
  && match sel_class s with Some c => has_class c n | None => true end.

(** Proper prefixes of a path: the paths of the ancestors. *)
Fixpoint ancestors (p : list nat) : list (list nat) :=
  match p with
  | [] => []
  | i :: p' => [] :: List.map (cons i) (ancestors p')
  end.

Definition matches_selector (root : node) (s : selector)
    (pn : list nat * node) : bool :=
  match s with
  | SelChild par child =>
      matches_simple child (snd pn)
      && match at_path root (removelast (fst pn)) with
         | Some a => matches_simple par a
         | None => false
         end
  | SelDesc anc desc =>
      matches_simple desc (snd pn)
      && existsb (fun q => match at_path root q with
                           | Some a => matches_simple anc a
                           | None => false
                           end) (ancestors (fst pn))
  end.

Definition below (t : tag) : list (list nat * node) :=
  descendants (path t) (node_of t).

Definition tag_at (t : tag) (pn : list nat * node) : tag :=
  {| doc := doc t; path := fst pn |}.

Definition search (t : tag) (keep : list nat * node -> bool) : list tag :=
  List.map (tag_at t) (List.filter keep (below t)).

Section Instance.
Context {RT : PyRuntime}.

Definition string_matches (label : pystr) (n : node) : bool :=
  match node_string n with
  | Some s => re_word_search label s
  | None => false
  end.

#[export] Instance soup : Soup node tag := {|
  BeautifulSoup content := Ok {| doc := content; path := [] |};
  select_one t s := Ok (head (search t (matches_selector (doc t) s)));
  find_all t nm := Ok (search t (fun pn => has_name nm (snd pn)));
  find_class t nm cls :=
    Ok (head (search t (fun pn => has_name nm (snd pn)
                                  && has_class cls (snd pn))));
  find_string t nm label :=
    Ok (head (search t (fun pn => has_name nm (snd pn)
                                  && string_matches label (snd pn))));
  parent t :=
    Ok (match path t with
        | [] => None
        | _ => Some {| doc := doc t; path := removelast (path t) |}
        end);
  text t := Ok (get_text (node_of t))
|}.
End Instance.
End Dom.

(** ** Symbol mapping *)

Record map_entry := {
  yfinance : pystr;
  screener_name : pystr
}.

Definition SYMBOL_MAP : gmap pystr map_entry :=
  <[lit "INFOSYS" := {| yfinance := lit "INFY.NS";
                        screener_name := lit "INFOSYS" |}]>
  (<[lit "HDFC" := {| yfinance := lit "HDFCBANK.NS";
                      screener_name := lit "HDFCBANK" |}]>
  (<[lit "L&T" := {| yfinance := lit "LT.NS";
                     screener_name := lit "LT" |}]> ∅)).

(** Source lines 114-120: the pair [(full_symbol, screener_name_for_url)]
    for an already normalised [stock_name]. *)
Definition resolve (stock_name : pystr) : pystr * pystr :=
  match SYMBOL_MAP !! stock_name with
  | Some map_entry => (yfinance map_entry, screener_name map_entry)
  | None => (replace Ch.space [] stock_name ++ lit ".NS", stock_name)
  end.

(** ** Market data *)

(** [isinstance(v, (int, float))]; [bool] is a subclass of [int]. *)
Definition is_int_or_float (v : pyval) : bool :=
  match v with
  | PyBool _ | PyInt _ | PyFloat _ => true
  | PyNone | PyStr _ => false
  end.

Definition ten_million : Z := 10000000.

(** [raw / 10000000] for a number; [None] is the [OverflowError] of an
    integer quotient beyond the float range. *)
Definition div_ten_million (raw : pyval) : option Float.float :=
  match raw with
  | PyBool b => Float.int_truediv (if b then 1 else 0) ten_million
  | PyInt n => Float.int_truediv n ten_million
  | PyFloat x => Some (Float.div x (Float.nearest false ten_million 1))
  | PyNone | PyStr _ => None
  end.

(** Source lines 131-133: what the [try] leaves in [market_cap_cr], and
    whether it was left through the [except]. *)
Definition market_cap (raw_market_cap : pyval) : pyval * bool :=
  if is_int_or_float raw_market_cap then
    match div_ten_million raw_market_cap with
    | Some q => (PyFloat (Float.round2 q), false)
    | None => (NA, true)
    end
  else (NA, false).

Definition market_cap_cr (raw_market_cap : pyval) : pyval :=
  fst (market_cap raw_market_cap).

Record market_data := {
  current_price : pyval;
  market_cap_value : pyval;
  yf_warning : bool
}.

(** Source lines 125-135; [info] is what [yf.Ticker(full_symbol).info]
    does. *)
Definition fetch_market_data (info : result (gmap pystr pyval)) : market_data :=
  match info with
  | Raise _ =>
      {| current_price := NA; market_cap_value := NA; yf_warning := true |}
  | Ok data_yf =>
      let price := default NA (data_yf !! lit "currentPrice") in
      let raw_market_cap := default NA (data_yf !! lit "marketCap") in
      let '(cap, failed) := market_cap raw_market_cap in
      {| current_price := price; market_cap_value := cap;
         yf_warning := failed |}
  end.

(** ** Rows, results and the output table *)

(** A row of the input frame: [row[col]] for the labels of [df.columns]. *)
Definition series := pystr -> pyval.

Record dataframe := {
  columns : list pystr;
  rows : list series
}.

(** A [dict] that remembers insertion order. *)
Abbreviation pydict := (list (pystr * pyval)).

Fixpoint dict_get (k : pystr) (d : pydict) : option pyval :=
  match d with
  | [] => None
  | (k', v) :: d' => if bool_decide (k = k') then Some v else dict_get k d'
  end.

Definition dict_mem (k : pystr) (d : pydict) : bool :=
  match dict_get k d with Some _ => true | None => false end.

(** [d[k] = v] *)
Fixpoint dict_set (k : pystr) (v : pyval) (d : pydict) : pydict :=
  match d with
  | [] => [(k, v)]
  | (k', v') :: d' =>
      if bool_decide (k = k') then (k', v) :: d'
      else (k', v') :: dict_set k v d'
  end.

Definition dict_of (kvs : pydict) : pydict :=
  fold_left (fun d kv => dict_set (fst kv) (snd kv) d) kvs [].

Definition final_new_cols : list pystr :=
  [lit "Stock Name"; lit "YF Symbol Used"; lit "Current Price (Rs.)";
   lit "Market Cap (Cr.)"; lit "P/E Ratio"; lit "Interest (Cr.)"].

(** Source lines 141-153. *)
Definition compile_result (cols : list pystr) (row : series)
    (full_symbol : pystr) (md : market_data) (sd : screener_data) : pydict :=
  let current_result :=
    dict_of [(lit "Stock Name", row (lit "Stock Name"));
             (lit "YF Symbol Used", PyStr full_symbol);
             (lit "Current Price (Rs.)", current_price md);
             (lit "Market Cap (Cr.)", market_cap_value md);
             (lit "P/E Ratio", pe_ratio sd);
             (lit "Interest (Cr.)", interest_cr sd)] in
  fold_left (fun d col => if dict_mem col d then d else dict_set col (row col) d)
            cols current_result.

Record table := {
  out_columns : list pystr;
  out_rows : list (list pyval)
}.

Definition nan : pyval := PyFloat S754_nan.

(** [pd.DataFrame(records)] settles one dtype for each column from the
    values the records hold under its key and converts them to it: an [int]
    among floats becomes a float, [None] among numbers NaN. How it does so
    is the library's business: [DataFrame_column values] are the values of
    a column of the frame built from records that hold [values] under its
    key, as many as there are records. *)
Class Pandas := {
  DataFrame_column : list pyval -> list pyval;
  DataFrame_column_length :
    forall values, length (DataFrame_column values) = length values
}.

(** The values the records hold under one key, in the order of the
    records; a key a record lacks reads as NaN. *)
Definition key_values (c : pystr) (results : list pydict) : list pyval :=
  List.map (fun d => default nan (dict_get c d)) results.

(** Row [i] of a table given by its columns. *)
Definition row_of (data : list (list pyval)) (i : nat) : list pyval :=
  List.map (fun column => default nan (column !! i)) data.


(** Source lines 161-168: [pd.DataFrame(results)], each column as the
    constructor leaves it, restricted to the final column order. *)
Definition export {PD : Pandas} (cols : list pystr) (results : list pydict)
  : option table :=
  match results with
  | [] => None
  | _ =>
      let original_cols :=
        List.filter (fun col => negb (bool_decide (col ∈ final_new_cols))) cols in
      let order := final_new_cols ++ original_cols in
      let data :=
        List.map (fun c => DataFrame_column (key_values c results)) order in
      Some {| out_columns := order;
              out_rows := List.map (row_of data) (seq 0 (length results)) |}
  end.

(** ** The run *)

Inductive event :=
| EvProgress (value : Float.float)   (* progress_bar.progress(value) *)
| EvWrite (stock_name : pystr)       (* st.write("Processing ...") *)
| EvTicker (full_symbol : pystr)     (* yf.Ticker(full_symbol).info *)
| EvWarning (full_symbol : pystr)    (* st.warning("YFinance failed ...") *)
| EvGet (r : request)                (* requests.get(...) *)
| EvSleep (seconds : Z).             (* time.sleep(1) *)

(** The outside world: what the two sources answer at a given row. *)
Record world (markup : Type) := {
  ticker_info : nat -> pystr -> result (gmap pystr pyval);
  requests_get : nat -> request -> http_outcome markup
}.
Arguments ticker_info {markup} w index full_symbol.
Arguments requests_get {markup} w index r.

Section Run.
Context {RT : PyRuntime} {markup tag : Type} {lib : Soup markup tag}
        {PD : Pandas}.
Variable w : world markup.

(** [str(row["Stock Name"]).strip().upper()] *)
Definition normalized_name (row : series) : pystr :=
  upper (strip (py_str (row (lit "Stock Name")))).

(** One turn of the loop of source lines 105-156 for the row at position
    [index]: the result appended, if any, and what happened on the way. An
    exception that nothing catches ends the run. *)
Definition iteration (cols : list pystr) (total_rows : Z) (index : nat)
    (row : series) : result (option pydict) * list event :=
  match Float.int_truediv (Z.of_nat index + 1) total_rows with
  | None => (Raise (PyExc "ArithmeticError"), [])
  | Some progress =>
      let stock_name := normalized_name row in
      match stock_name with
      | [] => (Ok None, [EvProgress progress])
      | _ =>
          let '(full_symbol, screener_name_for_url) := resolve stock_name in
          let md := fetch_market_data (ticker_info w index full_symbol) in
          let '(sd, r) :=
            scrape_screener_data_minimal (requests_get w index) stock_name
              screener_name_for_url in
          (Ok (Some (compile_result cols row full_symbol md sd)),
           [EvProgress progress; EvWrite stock_name; EvTicker full_symbol]
           ++ (if yf_warning md then [EvWarning full_symbol] else [])
           ++ [EvGet r; EvSleep 1])
      end
  end.

(** The loop over [df.iterrows()], from position [index] on. *)
Fixpoint loop (cols : list pystr) (total_rows : Z) (index : nat)
    (todo : list series) : result (list pydict) * list event :=
  match todo with
  | [] => (Ok [], [])
  | row :: rest =>
      match iteration cols total_rows index row with
      | (Raise e, evs) => (Raise e, evs)
      | (Ok r, evs) =>
          let '(rs, evs') := loop cols total_rows (S index) rest in
          (match rs with
           | Ok results => Ok (option_list r ++ results)
           | Raise e => Raise e
           end, evs ++ evs')
      end
  end.

(** Source lines 93-168 after the button is pressed: [None] when the frame
    has no ['Stock Name'] column. *)
Definition run (df : dataframe)
  : option (result (list pydict * option table) * list event) :=
  if bool_decide (lit "Stock Name" ∈ columns df) then
    let '(rs, evs) :=
      loop (columns df) (Z.of_nat (length (rows df))) 0 (rows df) in
    Some (match rs with
          | Ok results => Ok (results, export (columns df) results)
          | Raise e => Raise e
          end, evs)
  else None.
End Run.

(** ** An interpreter restricted to ASCII

    A runtime in which no character above U+007F is a digit or changes
    under [upper], and in which [\b] and case folding look at ASCII letters
    only: enough to run the program on concrete inputs. *)
Module Ascii7.
Definition isword (c : N) : bool :=
  ((48 <=? c) && (c <=? 57) || (65 <=? c) && (c <=? 90)
   || (97 <=? c) && (c <=? 122) || (c =? 95))%N.

Definition lower (c : N) : N :=
  if ((65 <=? c) && (c <=? 90))%N then (c + 32)%N else c.

(** Case-insensitive match of [label] at the head of [text]: the rest. *)
Fixpoint match_here (label text : pystr) : option pystr :=
  match label, text with
  | [], _ => Some text
  | a :: label', b :: text' =>
      if (lower a =? lower b)%N then match_here label' text' else None
  | _ :: _, [] => None
  end.

Definition opt_isword (c : option N) : bool :=
  match c with Some c => isword c | None => false end.

(** [\b] between two neighbouring positions. *)
Definition boundary (before after : option N) : bool :=
  xorb (opt_isword before) (opt_isword after).

Fixpoint search_from (before : option N) (label text : pystr) : bool :=
  match match_here label text with
  | Some rest =>
      boundary before (head text)
      && boundary (if label is [] then before else last label) (head rest)
  | None => false
  end
  || match text with
     | [] => false
     | c :: text' => search_from (Some c) label text'
     end.

Definition word_search (label text : pystr) : bool :=
  search_from None label text.

#[export] Instance runtime : PyRuntime := {|
  uni_upper c := [c];
  uni_upper_nonempty := fun c => ltac:(discriminate);
  uni_decimal _ := None;
  uni_decimal_not_space := fun c d => ltac:(discriminate);
  float_repr _ := lit "float";
  re_word_search := word_search
|}.
End Ascii7.

(** ** The statements of the specification, as definitions

    Each follows the words of the specification and is compared with the
    code below. *)
Section SpecWords.
Context {RT : PyRuntime}.

(** A string without the one newline that may end it: where [$] matches. *)
Definition chomp (s : pystr) : pystr :=
  match rev s with
  | c :: t => if (c =? Ch.newline)%N then rev t else s
  | [] => s
  end.

(** The strict numeric pattern in words: an optional leading minus, digits,
    and optionally a decimal point and digits. Returns the sign and the two
    digit sequences. *)
Definition strict_decimal (v : pystr) : option (bool * list N * list N) :=
  let '(neg, s) :=
    match v with
    | c :: r => if (c =? Ch.hyphen)%N then (true, r) else (false, v)
    | [] => (false, v)
    end in
  let '(ip, r) := span_digits s in
  match ip, r with
  | [], _ => None
  | _ :: _, [] => Some (neg, ip, [])
  | _ :: _, c :: r' =>
      if (c =? Ch.dot)%N then
        let '(fp, r'') := span_digits r' in
        match fp, r'' with
        | _ :: _, [] => Some (neg, ip, fp)
        | _, _ => None
        end
      else None
  end.

(** The float a strict decimal denotes: the binary64 number nearest to
    [(-1)^neg * ip.fp]. *)
Definition decimal_float (d : bool * list N * list N) : Float.float :=
  let '(neg, ip, fp) := d in
  Float.nearest neg (digits_value (ip ++ fp)) (10 ^ Z.of_nat (length fp)).

(** What a parser owes on an already normalised text. *)
Definition numeric_field (v : pystr) : pyval :=
  match strict_decimal (chomp v) with
  | Some d => PyFloat (decimal_float d)
  | None => NA
  end.

(** One normalisation for every parser: separators, currency and percent
    signs, white space and dashes all stripped, a leading minus kept. *)
Definition spec_normalize (text : pystr) : pystr :=
  let t := strip text in
  let '(neg, body) :=
    match t with
    | c :: r => if (c =? Ch.hyphen)%N then (true, r) else (false, t)
    | [] => (false, t)
    end in
  (if neg then [Ch.hyphen] else [])
  ++ List.filter (fun c => negb (isspace c || (c =? Ch.comma)%N
                           || (c =? Ch.rupee)%N || (c =? Ch.percent)%N
                           || (c =? Ch.hyphen)%N)) body.

(** "On first match": the first entry whose label contains the field name
    decides. Entries are (label text, value text) pairs. *)
Definition spec_first_match (entries : list (pystr * pystr)) : pyval :=
  match List.find (fun e => contains (lit "P/E") (clean_ratio_name (fst e))) entries with
  | Some e => numeric_field (clean_ratio_value (snd e))
  | None => NA
  end.

(** What the code does instead: the last such entry decides. *)
Definition last_match (entries : list (pystr * pystr)) : pyval :=
  match last (List.filter (fun e => contains (lit "P/E") (clean_ratio_name (fst e)))
                          entries) with
  | Some e => numeric_field (clean_ratio_value (snd e))
  | None => NA
  end.

(** "All whitespace removed". *)
Definition remove_whitespace (s : pystr) : pystr :=
  List.filter (fun c => negb (isspace c)) s.

Definition spec_fallback (stock_name : pystr) : pystr * pystr :=
  (remove_whitespace stock_name ++ lit ".NS", stock_name).

(** The row is skipped: its name is empty once stringified and trimmed. *)
Definition blank (row : series) : bool :=
  match strip (py_str (row (lit "Stock Name"))) with
  | [] => true
  | _ => false
  end.

(** "The Stock Name field is empty or whitespace-only after trimming", as
    the specification has it of the rows left out: the cell holds no value
    ([NaN] is what [read_excel] gives for an empty cell) or a string that
    is empty once trimmed. *)
Definition spec_empty_name (row : series) : bool :=
  match row (lit "Stock Name") with
  | PyNone | PyFloat S754_nan => true
  | PyStr s => match strip s with [] => true | _ => false end
  | _ => false
  end.
End SpecWords.

(** The (label, value) texts of the entries of the ratio list of a parsed
    document that have both spans. *)
Section DomEntries.
Context {RT : PyRuntime}.
Import Dom.

Definition first_span (cls : pystr) (li : tag) : option tag :=
  head (search li (fun pn => has_name (lit "span") (snd pn)
                             && has_class cls (snd pn))).

Definition entry_texts (li : tag) : option (pystr * pystr) :=
  match first_span (lit "name") li, first_span (lit "value") li with
  | Some n, Some v => Some (get_text (node_of n), get_text (node_of v))
  | _, _ => None
  end.

Definition ratio_entries (soup : tag) : list (pystr * pystr) :=
  match head (search soup (matches_selector (doc soup) ratio_list_selector)) with
  | Some ul =>
      omap entry_texts (search ul (fun pn => has_name (lit "li") (snd pn)))
  | None => []
  end.
End DomEntries.

(** A fundamentals fetch fails: the request raises (a timeout among other
    things), the status is one [raise_for_status] rejects, or the parser
    raises. *)
Definition fetch_failed {markup tag : Type} {lib : Soup markup tag}
    (o : http_outcome markup) : Prop :=
  match o with
  | HttpRaise _ => True
  | HttpResponse status_code content =>
      400 <= status_code < 600 \/ exists e, BeautifulSoup content = Raise e
  end.

(** The progress values of a trace, in the order emitted. *)
Definition progress_values (evs : list event) : list Float.float :=
  omap (fun e => match e with EvProgress v => Some v | _ => None end) evs.

(** ** Definitions used by the statements and proofs below *)

(** Equality of floats as data (not [==]: NaN equals itself here). *)
#[global] Instance spec_float_eq_dec : EqDecision spec_float.
Proof. solve_decision. Defined.

(** A float literal of the text, as a binary64 number. *)
Definition f64 (x : PrimFloat.float) : Float.float := Prim2SF x.

Section PatternLanguage.
Context {RT : PyRuntime}.
Import Re.

(** The strings a pattern denotes. *)
Inductive lang : regex -> pystr -> Prop :=
| LEps : lang Eps []
| LChr c : lang (Chr c) [c]
| LDigit c : isdecimal c = true -> lang Digit [c]
| LCat r1 r2 s1 s2 : lang r1 s1 -> lang r2 s2 -> lang (Cat r1 r2) (s1 ++ s2)
| LAltL r1 r2 s : lang r1 s -> lang (Alt r1 r2) s
| LAltR r1 r2 s : lang r2 s -> lang (Alt r1 r2) s
| LStarNil r : lang (Star r) []
| LStarApp r s1 s2 : lang r s1 -> lang (Star r) s2 -> lang (Star r) (s1 ++ s2).

(** [cs] are digit characters with values [ds]. *)
Definition digits_of (cs : pystr) (ds : list N) : Prop :=
  Forall2 (fun c d => decimal c = Some d) cs ds.

(** [r] does not start with a digit. *)
Definition no_digit_ahead (r : pystr) : Prop :=
  match r with
  | c :: _ => decimal c = None
  | [] => True
  end.

(** The text a strict decimal is written as. *)
Definition written (neg : bool) (ip : pystr) (frac : option pystr) : pystr :=
  (if neg then [Ch.hyphen] else [])
  ++ ip ++ match frac with Some fp => Ch.dot :: fp | None => [] end.

Definition frac_digits (frac : option pystr) (fv : list N) : Prop :=
  match frac with
  | Some fp => fv <> [] /\ digits_of fp fv
  | None => fv = []
  end.

(** What one entry of the ratio list does to the value held so far. *)
Definition entry_step (pe : pyval) (e : pystr * pystr) : pyval :=
  if contains (lit "P/E") (clean_ratio_name (fst e))
  then numeric_field (clean_ratio_value (snd e)) else pe.
End PatternLanguage.

(** One turn of the merge loop of source lines 151-153. *)
Definition merge_step (row : series) (d : pydict) (col : pystr) : pydict :=
  if dict_mem col d then d else dict_set col (row col) d.

(** The six extracted fields of a result, in the order of
    [final_new_cols]. *)
Definition extracted (row : series) (full_symbol : pystr) (md : market_data)
    (sd : screener_data) : list pyval :=
  [row (lit "Stock Name"); PyStr full_symbol; current_price md;
   market_cap_value md; pe_ratio sd; interest_cr sd].

Section RowByRow.
Context {RT : PyRuntime} {markup tag : Type} {lib : Soup markup tag}
        {PD : Pandas}.
Variable w : world markup.
Variable cols : list pystr.

(** What the row at position [index] contributes when it is not skipped. *)
Definition row_market (index : nat) (row : series) : market_data :=
  fetch_market_data (ticker_info w index (fst (resolve (normalized_name row)))).

Definition row_screener (index : nat) (row : series) : screener_data :=
  scrape_outcome
    (requests_get w index (screener_request (snd (resolve (normalized_name row))))).

Definition row_result (index : nat) (row : series) : pydict :=
  compile_result cols row (fst (resolve (normalized_name row)))
    (row_market index row) (row_screener index row).

Definition row_outcome (index : nat) (row : series) : option pydict :=
  if blank row then None else Some (row_result index row).

(** The events of a row after its progress update. *)
Definition row_events (index : nat) (row : series) : list event :=
  if blank row then [] else
  let stock_name := normalized_name row in
  [EvWrite stock_name; EvTicker (fst (resolve stock_name))]
  ++ (if yf_warning (row_market index row)
      then [EvWarning (fst (resolve stock_name))] else [])
  ++ [EvGet (screener_request (snd (resolve stock_name))); EvSleep 1].

(** The progress value of the row at position [index]. *)
Definition progress_at (total_rows : Z) (index : nat) : Float.float :=
  Float.nearest false (Z.of_nat index + 1) total_rows.

(** Results and events of the rows [todo] starting at position [index]. *)
Fixpoint results_from (index : nat) (todo : list series) : list pydict :=
  match todo with
  | [] => []
  | row :: rest => option_list (row_outcome index row) ++ results_from (S index) rest
  end.

Fixpoint events_from (total_rows : Z) (index : nat) (todo : list series)
  : list event :=
  match todo with
  | [] => []
  | row :: rest =>
      EvProgress (progress_at total_rows index) :: row_events index row
      ++ events_from total_rows (S index) rest
  end.
End RowByRow.

(** "After each row": in a trace, the progress update comes after the
    request made for the row. *)
Definition progress_after_request (evs : list event) : Prop :=
  forall i j v r,
    evs !! i = Some (EvProgress v) -> evs !! j = Some (EvGet r) -> (j < i)%nat.

(** ** Concrete inputs *)
Module Example.
Import Dom.

Definition lib : Soup node tag := Dom.soup (RT := Ascii7.runtime).

Definition span (cls text : string) : node :=
  Elem (lit "span") None [lit cls] [Text (lit text)].

Definition li (name value : string) : node :=
  Elem (lit "li") None [] [span "name" name; span "value" value].

Definition td (text : string) : node := Elem (lit "td") None [] [Text (lit text)].

(** A company page: a ratio list with two labels that contain ["P/E"], and
    a profit-and-loss table with an ["Interest"] row. *)
Definition page : node :=
  document
    [Elem (lit "div") None [lit "company-ratios"]
       [Elem (lit "ul") (Some (lit "top-ratios")) []
          [li "Market Cap" "1,234"; li "Stock P/E" "25.3";
           li "Industry P/E" "30.1"]];
     Elem (lit "section") (Some (lit "profit-loss")) []
       [Elem (lit "table") None []
          [Elem (lit "tr") None [] [td "Sales"; td "100"; td "200"];
           Elem (lit "tr") None [] [td "Interest"; td "110.5"; td "120.5"]]]].

Definition soup : tag := {| doc := page; path := [] |}.

(** A table constructor that leaves every value as it is: what the
    library does on the results of the frames below, each column of which
    holds floats alone or a string beside its other values. *)
Definition as_given : Pandas :=
  {| DataFrame_column values := values;
     DataFrame_column_length values := eq_refl |}.

Definition series_of (cells : pydict) : series :=
  fun col => default nan (dict_get col cells).

Definition frame : dataframe :=
  {| columns := [lit "Stock Name"; lit "Sector"; lit "P/E Ratio"];
     rows := [series_of [(lit "Stock Name", PyStr (lit " infosys "));
                         (lit "Sector", PyStr (lit "IT"));
                         (lit "P/E Ratio", PyInt 7)];
              series_of [(lit "Stock Name", PyStr (lit "   "));
                         (lit "Sector", PyStr (lit "none"))];
              series_of [(lit "Sector", PyStr (lit "unknown"))]] |}.

Definition one_row : dataframe :=
  {| columns := [lit "Stock Name"];
     rows := [series_of [(lit "Stock Name", PyStr (lit "INFOSYS"))]] |}.

(** Both sources answer. *)
Definition online : world node :=
  {| ticker_info _ _ :=
       Ok (<[lit "currentPrice" := PyFloat (Prim2SF 1520.5)]>
           (<[lit "marketCap" := PyInt 123456789]> ∅));
     requests_get _ _ := HttpResponse 200 page |}.

(** Neither does. *)
Definition offline : world node :=
  {| ticker_info _ _ := Raise (PyExc "ConnectionError");
     requests_get _ _ := HttpRaise (PyExc "Timeout") |}.
End Example.

(** * Predicates used by the further properties *)

(** A float that is neither negative nor NaN: a zero, a finite number or
    an infinity with the sign bit clear. *)
Definition nonnegative (x : Float.float) : Prop :=
  match x with
  | S754_zero s | S754_infinity s | S754_finite s _ _ => s = false
  | S754_nan => False
  end.

(** ["N/A"] or a float that is not NaN. *)
Definition numeric_or_na (v : pyval) : Prop :=
  match v with
  | PyFloat x => x <> S754_nan
  | v => v = NA
  end.

(** Structural induction on a document node, through the list of its
    children. *)
Section NodeInduction.
Import Dom.
Variable P : node -> Prop.
Hypothesis text_case : forall s, P (Text s).
Hypothesis elem_case :
  forall name id classes kids, Forall P kids -> P (Elem name id classes kids).

Fixpoint node_induction (n : node) : P n :=
  match n with
  | Text s => text_case s
  | Elem name id classes kids =>
      elem_case name id classes kids
        ((fix all (ks : list node) : Forall P ks :=
            match ks with
            | [] => @List.Forall_nil _ P
            | k :: ks' => @List.Forall_cons _ P k ks' (node_induction k) (all ks')
            end) kids)
  end.
End NodeInduction.

(** Kinds of events of a run. *)
Definition is_get (e : event) : bool :=
  match e with EvGet _ => true | _ => false end.

Definition is_ticker (e : event) : bool :=
  match e with EvTicker _ => true | _ => false end.

Definition is_progress (e : event) : bool :=
  match e with EvProgress _ => true | _ => false end.

(** How often events of one kind occur in a trace. *)
Definition count (kind : event -> bool) (evs : list event) : nat :=
  length (List.filter kind evs).

(** The seconds slept in a trace. *)
Definition slept (evs : list event) : Z :=
  fold_right (fun e acc => match e with EvSleep s => s + acc | _ => acc end) 0 evs.

(** Two result rows agree on the columns of the fundamentals. *)
Definition same_fundamentals (d1 d2 : pydict) : Prop :=
  dict_get (lit "P/E Ratio") d1 = dict_get (lit "P/E Ratio") d2
  /\ dict_get (lit "Interest (Cr.)") d1 = dict_get (lit "Interest (Cr.)") d2.

(** Two result rows agree on the columns of the market data. *)
Definition same_market_data (d1 d2 : pydict) : Prop :=
  dict_get (lit "Current Price (Rs.)") d1 = dict_get (lit "Current Price (Rs.)") d2
  /\ dict_get (lit "Market Cap (Cr.)") d1 = dict_get (lit "Market Cap (Cr.)") d2.

(** A float in the range the progress bar accepts: above 0.0, at most 1.0. *)
Definition in_unit_range (v : Float.float) : Prop :=
  Float.ltb (S754_zero false) v = true /\ SFleb v (f64 1) = true.

(** * Properties *)

(** ** Regular expressions: the language of a pattern *)
Section RegexFacts.
Context `{PyRuntime}.
Import Re.

Create HintDb re.
#[local] Hint Constructors lang : re.

Lemma lang_cat_inv r1 r2 s :
  lang (Cat r1 r2) s -> exists s1 s2, s = s1 ++ s2 /\ lang r1 s1 /\ lang r2 s2.
Proof. inversion 1; subst; eauto. Qed.

Lemma lang_alt_inv r1 r2 s : lang (Alt r1 r2) s -> lang r1 s \/ lang r2 s.
Proof. inversion 1; subst; auto. Qed.

Lemma lang_eps_inv s : lang Eps s -> s = [].
Proof. inversion 1; auto. Qed.

Lemma lang_chr_inv c s : lang (Chr c) s -> s = [c].
Proof. inversion 1; auto. Qed.

Lemma lang_digit_inv s : lang Digit s -> exists c, s = [c] /\ isdecimal c = true.
Proof. inversion 1; eauto. Qed.

Lemma nullable_lang r : nullable r = true <-> lang r [].
Proof.
  induction r; simpl; split; intros Hn; auto with re;
    try discriminate; try (inversion Hn; fail).
  - apply andb_true_iff in Hn as [H1 H2].
    change (@nil N) with (@nil N ++ []). constructor; tauto.
  - apply lang_cat_inv in Hn as (s1 & s2 & Hs & H1 & H2). symmetry in Hs.
    apply app_eq_nil in Hs as [-> ->]. apply andb_true_iff. tauto.
  - apply orb_true_iff in Hn as [H1|H2]; [apply LAltL|apply LAltR]; tauto.
  - apply orb_true_iff. apply lang_alt_inv in Hn. tauto.
Qed.

Lemma star_cons r c s :
  lang (Star r) (c :: s) ->
  exists s1 s2, s = s1 ++ s2 /\ lang r (c :: s1) /\ lang (Star r) s2.
Proof.
  intros Hl. remember (Star r) as r' eqn:Hr. remember (c :: s) as cs eqn:Hcs.
  revert c s Hr Hcs.
  induction Hl; intros c' s' Hr Hcs; try discriminate.
  injection Hr as ->.
  destruct s1 as [|a s1].
  - simpl in Hcs. eauto.
  - simpl in Hcs. injection Hcs as -> <-. eauto.
Qed.

Lemma deriv_lang r : forall c s, lang (deriv c r) s <-> lang r (c :: s).
Proof.
  induction r; intros a s; simpl.
  - split; intros Hl; inversion Hl.
  - split; intros Hl; inversion Hl.
  - destruct (N.eqb_spec a c) as [->|Hne]; split; intros Hl; inversion Hl; subst;
      auto with re; congruence.
  - destruct (isdecimal a) eqn:Hd; split; intros Hl; inversion Hl; subst;
      auto with re; congruence.
  - assert (Hcat : lang (Cat (deriv a r1) r2) s -> lang (Cat r1 r2) (a :: s)).
    { intros Hl. apply lang_cat_inv in Hl as (s1 & s2 & -> & H1 & H2).
      change (a :: s1 ++ s2) with ((a :: s1) ++ s2). constructor; auto.
      apply IHr1; auto. }
    assert (Hinv : lang (Cat r1 r2) (a :: s) ->
                   lang (Cat (deriv a r1) r2) s \/ (lang r1 [] /\ lang r2 (a :: s))).
    { intros Hl. apply lang_cat_inv in Hl as (s1 & s2 & Hs & H1 & H2).
      destruct s1 as [|b s1]; simpl in Hs.
      - subst. right; auto.
      - injection Hs as <- ->. left. constructor; auto. apply IHr1; auto. }
    destruct (nullable r1) eqn:Hn.
    + split; intros Hl.
      * apply lang_alt_inv in Hl as [Hl|Hl]; auto.
        change (a :: s) with ([] ++ a :: s). constructor.
        -- apply nullable_lang; auto.
        -- apply IHr2; auto.
      * destruct (Hinv Hl) as [Hc|[_ H2]]; [apply LAltL|apply LAltR]; auto.
        apply IHr2; auto.
    + split; intros Hl; auto.
      destruct (Hinv Hl) as [Hc|[H1 _]]; auto.
      apply nullable_lang in H1. congruence.
  - split; intros Hl; apply lang_alt_inv in Hl as [Hl|Hl].
    + apply LAltL, IHr1; auto.
    + apply LAltR, IHr2; auto.
    + apply LAltL, IHr1; auto.
    + apply LAltR, IHr2; auto.
  - split; intros Hl.
    + apply lang_cat_inv in Hl as (s1 & s2 & -> & H1 & H2).
      change (a :: s1 ++ s2) with ((a :: s1) ++ s2). constructor; auto.
      apply IHr; auto.
    + apply star_cons in Hl as (s1 & s2 & -> & H1 & H2).
      constructor; auto. apply IHr; auto.
Qed.

Lemma fullmatch_lang s : forall r, fullmatch r s = true <-> lang r s.
Proof.
  induction s as [|c s IH]; intros r; simpl.
  - apply nullable_lang.
  - rewrite IH. apply deriv_lang.
Qed.
End RegexFacts.

Section Digits.
Context `{PyRuntime}.
Import Re.

Lemma span_digits_spec s :
  forall ds r, span_digits s = (ds, r) ->
  exists cs, s = cs ++ r /\ digits_of cs ds /\ no_digit_ahead r.
Proof.
  induction s as [|c s IH]; simpl; intros ds r Hs.
  - injection Hs as <- <-. exists []. repeat split; constructor.
  - destruct (decimal c) as [d|] eqn:Hd.
    + destruct (span_digits s) as [ds' r'] eqn:Hs'. injection Hs as <- <-.
      destruct (IH _ _ eq_refl) as (cs & -> & Hcs & Hr).
      exists (c :: cs). repeat split; auto. constructor; auto.
    + injection Hs as <- <-. exists []. repeat split; auto. constructor.
Qed.

Lemma span_digits_app cs ds r :
  digits_of cs ds -> no_digit_ahead r -> span_digits (cs ++ r) = (ds, r).
Proof.
  intros Hcs Hr. induction Hcs as [|c d cs ds Hc Hcs IH]; simpl.
  - destruct r as [|c r]; simpl in *; auto. rewrite Hr. auto.
  - rewrite Hc, IH. auto.
Qed.

Lemma digits_of_isdecimal cs ds : digits_of cs ds -> Forall (fun c => isdecimal c = true) cs.
Proof.
  induction 1 as [|c d cs ds Hc _ IH]; constructor; auto.
  unfold isdecimal. rewrite Hc. auto.
Qed.

Lemma isdecimal_digits_of cs :
  Forall (fun c => isdecimal c = true) cs -> exists ds, digits_of cs ds.
Proof.
  induction 1 as [|c cs Hc _ [ds IH]].
  - exists []. constructor.
  - unfold isdecimal in Hc. destruct (decimal c) as [d|] eqn:Hd; [|discriminate].
    exists (d :: ds). constructor; auto.
Qed.

Lemma digits_of_length cs ds : digits_of cs ds -> length cs = length ds.
Proof. apply Forall2_length. Qed.

Lemma lang_star_digit s : lang (Star Digit) s <-> Forall (fun c => isdecimal c = true) s.
Proof.
  split.
  - intros Hl. remember (Star Digit) as r eqn:Hr. induction Hl; try discriminate.
    + constructor.
    + injection Hr as ->. apply lang_digit_inv in Hl1 as (c & -> & Hc).
      constructor; auto.
  - induction 1 as [|c s Hc _ IH]; [constructor|].
    change (c :: s) with ([c] ++ s). constructor; auto. constructor; auto.
Qed.

Lemma lang_plus_digit s :
  lang (Plus Digit) s <-> s <> [] /\ Forall (fun c => isdecimal c = true) s.
Proof.
  unfold Plus. split.
  - intros Hl. apply lang_cat_inv in Hl as (s1 & s2 & -> & H1 & H2).
    apply lang_digit_inv in H1 as (c & -> & Hc). apply lang_star_digit in H2.
    split; [discriminate|]. constructor; auto.
  - intros [Hne Hs]. destruct s as [|c s]; [congruence|].
    inversion Hs; subst. change (c :: s) with ([c] ++ s).
    constructor; [constructor; auto|]. apply lang_star_digit; auto.
Qed.

Lemma hyphen_not_decimal : decimal Ch.hyphen = None.
Proof. reflexivity. Qed.

Lemma dot_not_decimal : decimal Ch.dot = None.
Proof. reflexivity. Qed.

Lemma plus_not_decimal : decimal Ch.plus = None.
Proof. reflexivity. Qed.

Lemma newline_not_decimal : decimal Ch.newline = None.
Proof. reflexivity. Qed.

Lemma strict_decimal_written neg ip frac iv fv :
  iv <> [] -> digits_of ip iv -> frac_digits frac fv ->
  strict_decimal (written neg ip frac) = Some (neg, iv, fv).
Proof.
  intros Hne Hip Hfr. unfold strict_decimal, written.
  assert (Hhead : forall rest, match ip ++ rest with
                               | c :: r => if (c =? Ch.hyphen)%N then (true, r) else (false, ip ++ rest)
                               | [] => (false, ip ++ rest)
                               end = (false, ip ++ rest)).
  { intros rest. destruct Hip as [|c d cs ds Hc Hcs]; [congruence|]. simpl.
    destruct (N.eqb_spec c Ch.hyphen) as [->|_]; auto.
    rewrite hyphen_not_decimal in Hc. discriminate. }
  assert (Hrest : forall rest, no_digit_ahead rest ->
            (let '(ipv, r) := span_digits (ip ++ rest) in
             match ipv, r with
             | [], _ => None
             | _ :: _, [] => Some (neg, ipv, [])
             | _ :: _, c :: r' =>
                 if (c =? Ch.dot)%N then
                   let '(fp, r'') := span_digits r' in
                   match fp, r'' with
                   | _ :: _, [] => Some (neg, ipv, fp)
                   | _, _ => None
                   end
                 else None
             end) =
            match iv, rest with
             | [], _ => None
             | _ :: _, [] => Some (neg, iv, [])
             | _ :: _, c :: r' =>
                 if (c =? Ch.dot)%N then
                   let '(fp, r'') := span_digits r' in
                   match fp, r'' with
                   | _ :: _, [] => Some (neg, iv, fp)
                   | _, _ => None
                   end
                 else None
             end).
  { intros rest Hr. rewrite (span_digits_app ip iv rest); auto. }
  assert (Hfin : match iv, (match frac with Some fp => Ch.dot :: fp | None => [] end) with
             | [], _ => None
             | _ :: _, [] => Some (neg, iv, [])
             | _ :: _, c :: r' =>
                 if (c =? Ch.dot)%N then
                   let '(fp, r'') := span_digits r' in
                   match fp, r'' with
                   | _ :: _, [] => Some (neg, iv, fp)
                   | _, _ => None
                   end
                 else None
             end = Some (neg, iv, fv)).
  { destruct iv as [|d iv]; [congruence|].
    destruct frac as [fp|]; simpl in Hfr.
    - destruct Hfr as [Hfne Hfp]. rewrite N.eqb_refl.
      rewrite <- (app_nil_r fp). rewrite (span_digits_app fp fv []); auto; [|exact I].
      destruct fv; [congruence|]. auto.
    - subst. auto. }
  assert (Hnd : no_digit_ahead (match frac with Some fp => Ch.dot :: fp | None => [] end)).
  { destruct frac; simpl; auto. }
  destruct neg; simpl.
  - rewrite Hrest; auto.
  - rewrite Hhead. rewrite Hrest; auto.
Qed.

Lemma strict_decimal_inv v neg iv fv :
  strict_decimal v = Some (neg, iv, fv) ->
  exists ip frac, v = written neg ip frac /\ iv <> [] /\ digits_of ip iv
                  /\ frac_digits frac fv.
Proof.
  unfold strict_decimal. intros Hv.
  set (split := match v with
                | c :: r => if (c =? Ch.hyphen)%N then (true, r) else (false, v)
                | [] => (false, v)
                end) in Hv.
  assert (Hsplit : v = (if fst split then [Ch.hyphen] else []) ++ snd split).
  { subst split. destruct v as [|c r]; auto.
    destruct (N.eqb_spec c Ch.hyphen) as [->|_]; auto. }
  destruct split as [neg' s]. simpl in Hsplit.
  destruct (span_digits s) as [ipv r] eqn:Hs.
  apply span_digits_spec in Hs as (ip & -> & Hip & Hr).
  destruct ipv as [|d ipv]; [discriminate|].
  destruct r as [|c r'].
  - injection Hv as <- <- <-. exists ip, None. unfold written.
    repeat split; auto; try discriminate.
  - destruct (N.eqb_spec c Ch.dot) as [->|_]; [|discriminate].
    destruct (span_digits r') as [fpv r''] eqn:Hf.
    apply span_digits_spec in Hf as (fp & -> & Hfp & _).
    destruct fpv as [|f fpv]; [discriminate|].
    destruct r''; [|discriminate]. injection Hv as <- <- <-.
    exists ip, (Some fp). unfold written. rewrite app_nil_r in Hsplit.
    repeat split; auto; discriminate.
Qed.

(** The regular expression of the source accepts the strict decimals. *)
Lemma fullmatch_numeric v :
  fullmatch numeric_pattern v = true <-> is_Some (strict_decimal v).
Proof.
  rewrite fullmatch_lang. unfold numeric_pattern, Opt. split.
  - intros Hl.
    apply lang_cat_inv in Hl as (sg & rest & -> & Hsg & Hl).
    apply lang_cat_inv in Hl as (ip & fr & -> & Hip & Hfr).
    apply lang_plus_digit in Hip as [Hne Hip].
    apply isdecimal_digits_of in Hip as [iv Hiv].
    assert (Hivne : iv <> []).
    { intros ->. inversion Hiv; subst. congruence. }
    assert (Hneg : exists neg : bool, sg = if neg then [Ch.hyphen] else []).
    { apply lang_alt_inv in Hsg as [Hsg|Hsg].
      - apply lang_eps_inv in Hsg. exists false; auto.
      - apply lang_chr_inv in Hsg. exists true; auto. }
    destruct Hneg as [neg ->].
    assert (Hfrac : exists frac fv, fr = match frac with Some fp => Ch.dot :: fp | None => [] end
                                    /\ frac_digits frac fv).
    { apply lang_alt_inv in Hfr as [Hfr|Hfr].
      - apply lang_eps_inv in Hfr. exists None, []. simpl; auto.
      - apply lang_cat_inv in Hfr as (d & fp & -> & Hd & Hfp).
        apply lang_chr_inv in Hd as ->. apply lang_plus_digit in Hfp as [Hfne Hfp].
        apply isdecimal_digits_of in Hfp as [fv Hfv].
        exists (Some fp), fv. split; auto. split; auto.
        intros ->. inversion Hfv; subst. congruence. }
    destruct Hfrac as (frac & fv & -> & Hfrac).
    exists (neg, iv, fv). apply (strict_decimal_written neg ip frac); auto.
  - intros [[[neg iv] fv] Hv].
    apply strict_decimal_inv in Hv as (ip & frac & -> & Hne & Hip & Hfr).
    unfold written. constructor.
    + destruct neg; [apply LAltR|apply LAltL]; constructor.
    + constructor.
      * apply lang_plus_digit. split.
        -- intros ->. inversion Hip; subst. congruence.
        -- eapply digits_of_isdecimal; eauto.
      * destruct frac as [fp|]; simpl in Hfr.
        -- apply LAltR. destruct Hfr as [Hfne Hfp].
           change (Ch.dot :: fp) with ([Ch.dot] ++ fp). constructor; [constructor|].
           apply lang_plus_digit. split.
           ++ intros ->. inversion Hfp; subst. congruence.
           ++ eapply digits_of_isdecimal; eauto.
        -- apply LAltL. constructor.
Qed.
End Digits.

(** ** Stripping *)

Lemma lstrip_head s c : head s = Some c -> isspace c = false -> lstrip s = s.
Proof. destruct s as [|a s]; simpl; [discriminate|]. intros [= ->] ->. auto. Qed.

Lemma rstrip_snoc s c :
  rstrip (s ++ [c]) = if isspace c then rstrip s else s ++ [c].
Proof.
  unfold rstrip. rewrite rev_app_distr. simpl.
  destruct (isspace c); auto. simpl. rewrite rev_involutive. auto.
Qed.

Lemma rstrip_last s c : last s = Some c -> isspace c = false -> rstrip s = s.
Proof.
  intros Hl Hc. destruct (exists_last (l := s)) as (s' & c' & ->).
  { intros ->. discriminate. }
  rewrite last_snoc in Hl. injection Hl as ->. rewrite rstrip_snoc, Hc. auto.
Qed.

Lemma strip_nil : strip [] = [].
Proof. reflexivity. Qed.

(** Splitting off a bounded character: white space is 9-13, 28-32 or above
    U+007F. *)
Lemma isspace_false_range (c : N) :
  (33 <= c < 128)%N -> isspace c = false.
Proof.
  intros Hc. unfold isspace.
  repeat match goal with
  | |- (_ || _)%bool = false => apply orb_false_intro
  | |- (_ && _)%bool = false => apply andb_false_iff
  end;
  repeat match goal with
  | |- (_ =? _)%N = false => apply N.eqb_neq; lia
  | |- (_ <=? _)%N = false \/ (_ <=? _)%N = false =>
      first [ left; apply N.leb_gt; lia | right; apply N.leb_gt; lia ]
  end.
Qed.

Section FloatOfDecimal.
Context `{PyRuntime}.

Lemma decimal_not_space c d : decimal c = Some d -> isspace c = false.
Proof.
  unfold decimal. destruct (N.ltb_spec c 128) as [Hlt|Hge].
  - destruct (N.leb_spec 48 c); simpl; [|discriminate].
    intros _. apply isspace_false_range. lia.
  - apply uni_decimal_not_space.
Qed.

Lemma digits_of_head ip iv c :
  digits_of ip iv -> head ip = Some c -> exists d, decimal c = Some d.
Proof. destruct 1; simpl; [discriminate|]. intros [= ->]. eauto. Qed.

Lemma digits_of_last ip iv c :
  digits_of ip iv -> last ip = Some c -> exists d, decimal c = Some d.
Proof.
  induction 1 as [|a d cs ds Ha Hcs IH]; simpl; [discriminate|].
  destruct cs as [|b cs]; simpl in *.
  - intros [= ->]. eauto.
  - auto.
Qed.

Lemma written_head neg ip frac iv :
  iv <> [] -> digits_of ip iv ->
  exists c, head (written neg ip frac) = Some c /\ isspace c = false
            /\ (neg = false -> c <> Ch.hyphen /\ c <> Ch.plus).
Proof.
  intros Hne Hip. unfold written. destruct neg; simpl.
  - exists Ch.hyphen. repeat split; auto; discriminate.
  - destruct Hip as [|c d cs ds Hc Hcs]; [congruence|]. simpl.
    exists c. split; auto. split; [eapply decimal_not_space; eauto|].
    intros _. split; intros ->.
    + rewrite hyphen_not_decimal in Hc. discriminate.
    + rewrite plus_not_decimal in Hc. discriminate.
Qed.

Lemma written_last neg ip frac iv fv :
  iv <> [] -> digits_of ip iv -> frac_digits frac fv ->
  exists c d, last (written neg ip frac) = Some c /\ decimal c = Some d.
Proof.
  intros Hne Hip Hfr. unfold written.
  assert (Hip' : exists c d, last ip = Some c /\ decimal c = Some d).
  { destruct (last ip) as [c|] eqn:Hl.
    - destruct (digits_of_last _ _ _ Hip Hl) as [d Hd]. eauto.
    - apply last_None in Hl. subst. inversion Hip; subst. congruence. }
  destruct frac as [fp|]; simpl in Hfr.
  - destruct Hfr as [Hfne Hfp].
    assert (Hfp' : exists c d, last fp = Some c /\ decimal c = Some d).
    { destruct (last fp) as [c|] eqn:Hl.
      - destruct (digits_of_last _ _ _ Hfp Hl) as [d Hd]. eauto.
      - apply last_None in Hl. subst. inversion Hfp; subst. congruence. }
    destruct Hfp' as (c & d & Hl & Hd). exists c, d. split; auto.
    rewrite !last_app. change (Ch.dot :: fp) with ([Ch.dot] ++ fp).
    rewrite last_app, Hl. auto.
  - destruct Hip' as (c & d & Hl & Hd). exists c, d. split; auto.
    rewrite app_nil_r, last_app, Hl. auto.
Qed.

Lemma strict_decimal_snoc_newline w : strict_decimal (w ++ [Ch.newline]) = None.
Proof.
  destruct (strict_decimal (w ++ [Ch.newline])) as [[[neg iv] fv]|] eqn:Hs; auto.
  apply strict_decimal_inv in Hs as (ip & frac & Hw & Hne & Hip & Hfr).
  destruct (written_last neg ip frac iv fv Hne Hip Hfr) as (c & d & Hl & Hd).
  rewrite <- Hw, last_snoc in Hl. injection Hl as <-.
  rewrite newline_not_decimal in Hd. discriminate.
Qed.

(** [$] lets one final newline through: the pattern of the source accepts
    [v] exactly when [v] without it is a strict decimal. *)
Lemma is_valid_number_chomp v :
  is_valid_number v = true <-> is_Some (strict_decimal (chomp v)).
Proof.
  unfold is_valid_number, re_match_anchored, chomp.
  destruct (rev v) as [|c t] eqn:Hrev.
  - rewrite orb_false_r. apply fullmatch_numeric.
  - assert (Hv : v = rev t ++ [c]).
    { rewrite <- (rev_involutive v), Hrev. reflexivity. }
    destruct (N.eqb_spec c Ch.newline) as [->|Hne]; simpl.
    + rewrite orb_true_iff, !fullmatch_numeric. split.
      * intros [Hs|Hs]; auto. rewrite Hv, strict_decimal_snoc_newline in Hs.
        destruct Hs; discriminate.
      * auto.
    + rewrite orb_false_r. apply fullmatch_numeric.
Qed.

Lemma chomp_cases v :
  (v = chomp v /\ forall w, v <> w ++ [Ch.newline]) \/ v = chomp v ++ [Ch.newline].
Proof.
  unfold chomp. destruct (rev v) as [|c t] eqn:Hrev.
  - left. split; auto. intros w ->. rewrite rev_app_distr in Hrev. discriminate.
  - assert (Hv : v = rev t ++ [c]).
    { rewrite <- (rev_involutive v), Hrev. reflexivity. }
    destruct (N.eqb_spec c Ch.newline) as [->|Hne]; auto.
    left. split; auto. intros w Hw. rewrite Hw in Hv.
    apply app_inj_tail in Hv as [_ Hc]. congruence.
Qed.

Lemma strip_written neg ip frac iv fv (nl : bool) :
  iv <> [] -> digits_of ip iv -> frac_digits frac fv ->
  strip (written neg ip frac ++ (if nl then [Ch.newline] else []))
  = written neg ip frac.
Proof.
  intros Hne Hip Hfr. unfold strip.
  destruct (written_head neg ip frac iv Hne Hip) as (c & Hh & Hc & _).
  destruct (written_last neg ip frac iv fv Hne Hip Hfr) as (c' & d & Hl & Hd).
  rewrite (lstrip_head _ c); auto.
  - destruct nl.
    + rewrite rstrip_snoc. change (isspace Ch.newline) with true. simpl.
      eapply rstrip_last; eauto. eapply decimal_not_space; eauto.
    + rewrite app_nil_r. eapply rstrip_last; eauto. eapply decimal_not_space; eauto.
  - destruct (written neg ip frac); simpl in *; [discriminate|auto].
Qed.

Lemma py_float_written neg ip frac iv fv (nl : bool) :
  iv <> [] -> digits_of ip iv -> frac_digits frac fv ->
  py_float (written neg ip frac ++ (if nl then [Ch.newline] else []))
  = Some (decimal_float (neg, iv, fv)).
Proof.
  intros Hne Hip Hfr. unfold py_float.
  rewrite (strip_written neg ip frac iv fv nl); auto.
  set (fr := match frac with Some fp => Ch.dot :: fp | None => [] end).
  assert (Hsign : match written neg ip frac with
                  | c :: r => if (c =? Ch.hyphen)%N then (true, r)
                              else if (c =? Ch.plus)%N then (false, r)
                              else (false, written neg ip frac)
                  | [] => (false, written neg ip frac)
                  end = (neg, ip ++ fr)).
  { destruct neg.
    - reflexivity.
    - destruct (written_head false ip frac iv Hne Hip) as (c & Hh & _ & Hc).
      destruct (Hc eq_refl) as [Hc1 Hc2].
      change (written false ip frac) with (ip ++ fr) in *.
      destruct (ip ++ fr) as [|a r]; [discriminate|]. simpl in Hh. injection Hh as ->.
      destruct (N.eqb_spec c Ch.hyphen); [congruence|].
      destruct (N.eqb_spec c Ch.plus); [congruence|]. auto. }
  rewrite Hsign.
  assert (Hnd : no_digit_ahead fr).
  { subst fr. destruct frac; simpl; auto. }
  rewrite (span_digits_app ip iv fr); auto.
  subst fr. unfold decimal_float. destruct frac as [fp|]; simpl in Hfr.
  - destruct Hfr as [Hfne Hfp]. rewrite N.eqb_refl.
    rewrite <- (app_nil_r fp). rewrite (span_digits_app fp fv []); auto; [|exact I].
    destruct (iv ++ fv) eqn:Hiv.
    + apply app_eq_nil in Hiv as [-> _]. congruence.
    + auto.
  - subst fv. destruct iv; [congruence|]. rewrite app_nil_r. reflexivity.
Qed.

(** The tail shared by both parsers never raises, and returns the float of
    the strict decimal or ["N/A"]. *)
Lemma float_or_na_numeric_field v : float_or_na v = Ok (numeric_field v).
Proof.
  unfold float_or_na, numeric_field.
  destruct (is_valid_number v) eqn:Hv.
  - apply is_valid_number_chomp in Hv as [[[neg iv] fv] Hs]. rewrite Hs.
    pose proof Hs as Hs'.
    apply strict_decimal_inv in Hs' as (ip & frac & Hw & Hne & Hip & Hfr).
    assert (Hpf : py_float v = Some (decimal_float (neg, iv, fv))).
    { destruct (chomp_cases v) as [[Hc _]|Hc]; rewrite Hc, Hw.
      - rewrite <- (app_nil_r (written neg ip frac)).
        apply (py_float_written neg ip frac iv fv false); auto.
      - apply (py_float_written neg ip frac iv fv true); auto. }
    rewrite Hpf. reflexivity.
  - destruct (strict_decimal (chomp v)) eqn:Hs; auto.
    assert (is_valid_number v = true) by (apply is_valid_number_chomp; eauto).
    congruence.
Qed.
End FloatOfDecimal.

(** ** Rounding *)
Module FloatFacts.
Import Float.

Lemma rne_bounds a b :
  0 <= a -> 0 < b ->
  2 * a - b <= 2 * rne a b * b <= 2 * a + b.
Proof.
  intros Ha Hb. unfold rne.
  pose proof (Z.div_mod a b ltac:(lia)) as Hdm.
  pose proof (Z.mod_pos_bound a b Hb) as Hr.
  set (q := a / b) in *. set (r := a mod b) in *.
  destruct (Z.compare_spec (2 * r) b) as [He|Hl|Hg];
    [destruct (Z.even q)|..]; nia.
Qed.

Lemma rne_nonneg a b : 0 <= a -> 0 < b -> 0 <= rne a b.
Proof. intros Ha Hb. pose proof (rne_bounds a b Ha Hb). nia. Qed.

Lemma floor_log2_below a b k :
  0 < a -> 0 < b -> 0 <= k -> a < b * 2 ^ k -> floor_log2 a b <= k - 1.
Proof.
  intros Ha Hb Hk Hlt. unfold floor_log2.
  assert (Hlog : Z.log2 a <= Z.log2 b + k).
  { pose proof (Z.log2_mul_pow2 b k Hb Hk) as Hmul.
    pose proof (Z.log2_le_mono a (b * 2 ^ k) ltac:(lia)). lia. }
  set (l := Z.log2 a - Z.log2 b) in *.
  destruct (Z.leb_spec 0 l) as [Hl|Hl].
  - destruct (Z.leb_spec (b * 2 ^ l) a) as [Ht|Ht]; [|lia].
    assert (l < k); [|lia].
    apply Z.nle_gt. intros Hkl.
    assert (2 ^ k <= 2 ^ l) by (apply Z.pow_le_mono_r; lia). nia.
  - destruct (b <=? a * 2 ^ (- l)); lia.
Qed.

(** No overflow below [2^1023]. *)
Lemma nearest_finite neg a b :
  0 <= a -> 0 < b -> a < b * 2 ^ 1023 ->
  forall s, nearest neg a b <> S754_infinity s.
Proof.
  intros Ha Hb Hlt s. unfold nearest.
  destruct (Z.eqb_spec a 0) as [_|Hne]; [discriminate|].
  pose proof (floor_log2_below a b 1023 ltac:(lia) Hb ltac:(lia) Hlt) as Hfl.
  unfold ulp_exp.
  set (e := Z.max (floor_log2 a b - 52) (-1074)).
  assert (He : e <= 970) by (subst e; lia).
  destruct (scaled_rne a b e =? 0); [discriminate|].
  destruct (scaled_rne a b e =? 2 ^ 53).
  - destruct (Z.ltb_spec 971 (e + 1)); [lia|discriminate].
  - destruct (Z.ltb_spec 971 e); [lia|discriminate].
Qed.

Lemma int_truediv_in_range a b :
  b <> 0 -> Z.abs a < Z.abs b * 2 ^ 1023 ->
  int_truediv a b = Some (nearest (xorb (a <? 0) (b <? 0)) (Z.abs a) (Z.abs b)).
Proof.
  intros Hb Hlt. unfold int_truediv.
  destruct (Z.eqb_spec b 0); [congruence|].
  pose proof (nearest_finite (xorb (a <? 0) (b <? 0)) (Z.abs a) (Z.abs b)
                ltac:(lia) ltac:(lia) Hlt) as Hfin.
  destruct (nearest _ _ _) eqn:Hn; auto.
  exfalso. eapply Hfin; eauto.
Qed.

(** *** Fractions in (0, 1] *)

(** For [a <= b] the logarithm is [- s] for the least shift [s] that lifts
    [a] to [b]. *)
Lemma floor_log2_unit a b :
  0 < a -> a <= b ->
  exists s, 0 <= s /\ floor_log2 a b = - s /\ b <= a * 2 ^ s
            /\ (0 < s -> a * 2 ^ (s - 1) < b).
Proof.
  intros Ha Hab. unfold floor_log2.
  pose proof (Z.log2_spec a Ha) as [Hla1 Hla2].
  pose proof (Z.log2_spec b ltac:(lia)) as [Hlb1 Hlb2].
  pose proof (Z.log2_nonneg a) as Hla0. pose proof (Z.log2_nonneg b) as Hlb0.
  assert (Hle : Z.log2 a <= Z.log2 b) by (apply Z.log2_le_mono; lia).
  set (la := Z.log2 a) in *. set (lb := Z.log2 b) in *.
  set (l := la - lb).
  destruct (Z.leb_spec 0 l) as [Hl|Hl].
  - assert (l = 0) by lia. replace (2 ^ l) with 1 by (subst l; rewrite H; reflexivity).
    destruct (Z.leb_spec (b * 1) a) as [Ht|Ht].
    + exists 0. rewrite H. repeat split; try lia.
    + exists 1. rewrite H. repeat split; try lia.
      assert (lb = la) by lia. subst lb. rewrite H0 in *.
      rewrite Z.pow_succ_r in Hlb2 by lia. change (2 ^ 1) with 2. lia.
  - assert (Hpow : 2 ^ lb = 2 ^ la * 2 ^ (- l)).
    { rewrite <- Z.pow_add_r by lia. f_equal. lia. }
    destruct (Z.leb_spec b (a * 2 ^ (- l))) as [Ht|Ht].
    + exists (- l). repeat split; try lia.
      intros _. replace (- l) with (Z.succ (- l - 1)) in Hpow by lia.
      rewrite Z.pow_succ_r in Hpow by lia. rewrite Z.pow_succ_r in Hla2 by lia.
      assert (0 < 2 ^ (- l - 1)) by (apply Z.pow_pos_nonneg; lia). nia.
    + exists (- l + 1). repeat split; try lia.
      * rewrite Z.pow_add_r by lia. change (2 ^ 1) with 2.
        rewrite Z.pow_succ_r in Hlb2 by lia.
        assert (0 < 2 ^ (- l)) by (apply Z.pow_pos_nonneg; lia). nia.
      * intros _. replace (- l + 1 - 1) with (- l) by lia. lia.
Qed.

Lemma shift_unique a b s :
  0 < a -> 0 <= s -> b <= a * 2 ^ s -> (0 < s -> a * 2 ^ (s - 1) < b) ->
  forall s', 0 <= s' -> b <= a * 2 ^ s' -> s <= s'.
Proof.
  intros Ha Hs Hle Hlt s' Hs' Hle'.
  destruct (Z.le_gt_cases s s') as [|Hgt]; auto.
  assert (2 ^ s' <= 2 ^ (s - 1)) by (apply Z.pow_le_mono_r; lia).
  specialize (Hlt ltac:(lia)). nia.
Qed.

(** The binary64 number nearest to [a / b] for [0 < a <= b < 2^53], in the
    open: mantissa and exponent. *)
Lemma nearest_unit a b :
  0 < a -> a <= b -> b < 2 ^ 53 ->
  exists s m,
    0 <= s <= 53 /\ b <= a * 2 ^ s /\ (0 < s -> a * 2 ^ (s - 1) < b)
    /\ m = rne (a * 2 ^ (s + 52)) b /\ 2 ^ 52 <= m <= 2 ^ 53
    /\ nearest false a b =
       if m =? 2 ^ 53 then S754_finite false (Z.to_pos (2 ^ 52)) (- s - 52 + 1)
       else S754_finite false (Z.to_pos m) (- s - 52).
Proof.
  intros Ha Hab Hb.
  destruct (floor_log2_unit a b Ha Hab) as (s & Hs & Hfl & Hle & Hlt).
  assert (Hs53 : s <= 53).
  { destruct (Z.le_gt_cases s 53) as [|Hgt]; auto.
    specialize (Hlt ltac:(lia)).
    assert (2 ^ 53 <= 2 ^ (s - 1)) by (apply Z.pow_le_mono_r; lia). nia. }
  exists s, (rne (a * 2 ^ (s + 52)) b).
  assert (Hp52 : 2 ^ (s + 52) = 2 ^ s * 2 ^ 52) by (apply Z.pow_add_r; lia).
  assert (Hps : 0 < 2 ^ s) by (apply Z.pow_pos_nonneg; lia).
  assert (HM : b * 2 ^ 52 <= a * 2 ^ (s + 52) < b * 2 ^ 53).
  { rewrite Hp52. split; [nia|].
    destruct (Z.eq_dec s 0) as [->|Hs0].
    - change (2 ^ 0) with 1. lia.
    - specialize (Hlt ltac:(lia)).
      replace s with (Z.succ (s - 1)) at 1 by lia. rewrite Z.pow_succ_r by lia.
      lia. }
  pose proof (rne_bounds (a * 2 ^ (s + 52)) b ltac:(nia) ltac:(lia)) as Hr.
  set (m := rne (a * 2 ^ (s + 52)) b) in *.
  assert (Hm : 2 ^ 52 <= m <= 2 ^ 53).
  { change (2 ^ 52) with 4503599627370496 in *.
    change (2 ^ 53) with 9007199254740992 in *. nia. }
  repeat split; try lia.
  unfold nearest. destruct (Z.eqb_spec a 0); [lia|].
  unfold ulp_exp. rewrite Hfl.
  replace (Z.max (- s - 52) (-1074)) with (- s - 52) by lia.
  unfold scaled_rne. destruct (Z.leb_spec 0 (- s - 52)); [lia|].
  replace (- (- s - 52)) with (s + 52) by lia. fold m.
  destruct (Z.eqb_spec m 0); [lia|].
  destruct (Z.eqb_spec m (2 ^ 53)).
  - destruct (Z.ltb_spec 971 (- s - 52 + 1)); [lia|]. reflexivity.
  - destruct (Z.ltb_spec 971 (- s - 52)); [lia|]. reflexivity.
Qed.

Lemma finite_ltb m1 e1 m2 e2 :
  0 < m1 -> 0 < m2 -> (e1 < e2 \/ (e1 = e2 /\ m1 < m2)) ->
  ltb (S754_finite false (Z.to_pos m1) e1) (S754_finite false (Z.to_pos m2) e2)
  = true.
Proof.
  intros H1 H2 Hlt. unfold ltb, SFltb, SFcompare.
  destruct Hlt as [He|[-> Hm]].
  - rewrite (proj2 (Z.compare_lt_iff e1 e2) He). auto.
  - rewrite Z.compare_refl.
    change (Pos.compare_cont Eq) with Pos.compare.
    rewrite (proj2 (Pos.compare_lt_iff _ _)); auto.
    lia.
Qed.

(** Two fractions [a / b < a' / b <= 1] with [b < 2^53] round to different
    floats, in the same order. *)
Lemma nearest_lt a a' b :
  0 < a -> a < a' -> a' <= b -> b < 2 ^ 53 ->
  ltb (nearest false a b) (nearest false a' b) = true.
Proof.
  intros Ha Haa Hab Hb.
  destruct (nearest_unit a b Ha ltac:(lia) Hb)
    as (s1 & m1 & Hs1 & Hle1 & Hlt1 & Hm1 & Hr1 & ->).
  destruct (nearest_unit a' b ltac:(lia) Hab Hb)
    as (s2 & m2 & Hs2 & Hle2 & Hlt2 & Hm2 & Hr2 & ->).
  assert (Hs21 : s2 <= s1).
  { assert (0 < 2 ^ s1) by (apply Z.pow_pos_nonneg; lia).
    apply (shift_unique a' b s2); try lia; try nia. }
  assert (Hs1pos : 0 < s1).
  { destruct (Z.eq_dec s1 0) as [->|]; [|lia]. change (2 ^ 0) with 1 in Hle1. lia. }
  pose proof (rne_bounds (a * 2 ^ (s1 + 52)) b) as Hb1.
  pose proof (rne_bounds (a' * 2 ^ (s2 + 52)) b) as Hb2.
  rewrite <- Hm1 in Hb1. rewrite <- Hm2 in Hb2.
  assert (Hp1 : 0 < 2 ^ (s1 + 52)) by (apply Z.pow_pos_nonneg; lia).
  assert (Hp2 : 0 < 2 ^ (s2 + 52)) by (apply Z.pow_pos_nonneg; lia).
  specialize (Hb1 ltac:(nia) ltac:(lia)). specialize (Hb2 ltac:(nia) ltac:(lia)).
  change (2 ^ 53) with 9007199254740992 in *.
  change (2 ^ 52) with 4503599627370496 in *.
  assert (Hbig : 9007199254740992 <= 2 ^ (s1 + 52)).
  { change 9007199254740992 with (2 ^ 53). apply Z.pow_le_mono_r; lia. }
  destruct (Z.eq_dec s1 s2) as [Heq|Hne].
  - (* same binade: the scaled fractions are more than one apart *)
    subst s2.
    assert (Hm12 : m1 < m2) by nia.
    destruct (Z.eqb_spec m1 9007199254740992); [lia|].
    destruct (Z.eqb_spec m2 9007199254740992).
    + apply finite_ltb; lia.
    + apply finite_ltb; lia.
  - (* the larger fraction lies in a higher binade *)
    assert (Hs : s2 + 1 <= s1) by lia.
    destruct (Z.eqb_spec m1 9007199254740992) as [Hm1'|Hm1'].
    + destruct (Z.eqb_spec m2 9007199254740992) as [Hm2'|Hm2'].
      * apply finite_ltb; lia.
      * destruct (Z.eq_dec (s2 + 1) s1) as [Hs'|Hs'].
        -- (* adjacent binades: the upper one is not at its lower end *)
           apply finite_ltb; try lia. right. split; [lia|].
           subst s1.
           replace (s2 + 1 + 52) with (Z.succ (s2 + 52)) in * by lia.
           rewrite Z.pow_succ_r in * by lia.
           destruct (Z.eq_dec s2 0) as [->|Hs2'].
           ++ change (2 ^ (0 + 52)) with 4503599627370496 in *. nia.
           ++ assert (2 * 9007199254740992 <= 2 * 2 ^ (s2 + 52)).
              { change (2 * 9007199254740992) with (2 ^ 54).
                rewrite <- Z.pow_succ_r by lia. apply Z.pow_le_mono_r; lia. }
              nia.
        -- apply finite_ltb; lia.
    + destruct (Z.eqb_spec m2 9007199254740992); apply finite_ltb; lia.
Qed.
End FloatFacts.

(** The rounding written out above agrees with the binary64 arithmetic of
    the machine, on the values of the text and on the usual corner cases:
    ties, subnormal numbers, the largest float and the first overflow. *)
Lemma nearest_agrees_with_binary64 :
  Float.nearest false 1235 100 = f64 12.35
  /\ Float.int_truediv 123456789 10000000 = Some (f64 (123456789 / 10000000))
  /\ Float.int_truediv 1 3 = Some (f64 (1 / 3))
  /\ Float.int_truediv 7 10 = Some (SFdiv prec emax (f64 7) (f64 10))
  /\ Float.round2 (f64 0.005) = f64 0.01
  /\ Float.round2 (f64 0.015) = f64 0.01
  /\ Float.round2 (f64 2.675) = f64 2.67
  /\ Float.int_truediv 3 (2 ^ 1075) = Some (f64 0x1p-1073)
  /\ Float.int_truediv 1 (2 ^ 1075) = Some (f64 0)
  /\ Float.int_truediv (2 ^ 1024 - 2 ^ 970 - 1) 1
     = Some (f64 0x1.fffffffffffffp+1023)
  /\ Float.int_truediv (2 ^ 1024 - 2 ^ 970) 1 = None.
Proof. repeat split; vm_compute; reflexivity. Qed.

(** On a grid of small fractions it agrees with IEEE division. *)
Lemma nearest_agrees_with_division :
  forallb (fun a =>
    forallb (fun b =>
      bool_decide (Float.nearest false (Z.of_nat a) (Z.of_nat b)
                   = SFdiv prec emax (Float.nearest false (Z.of_nat a) 1)
                       (Float.nearest false (Z.of_nat b) 1)))
      (seq 1 40)) (seq 1 40) = true.
Proof. vm_compute. reflexivity. Qed.

(** ** Dictionaries *)

Lemma dict_get_set k v d k' :
  dict_get k' (dict_set k v d) = if bool_decide (k' = k) then Some v else dict_get k' d.
Proof.
  induction d as [|[k0 v0] d IH]; simpl.
  - auto.
  - destruct (bool_decide_reflect (k = k0)) as [->|Hne]; simpl.
    + destruct (bool_decide_reflect (k' = k0)); auto.
    + rewrite IH. destruct (bool_decide_reflect (k' = k0)) as [->|Hne']; auto.
      destruct (bool_decide_reflect (k0 = k)); congruence.
Qed.

Section Merge.
Variable row : series.

Lemma dict_get_merge cols : forall d c,
  dict_get c (fold_left (merge_step row) cols d) =
  match dict_get c d with
  | Some v => Some v
  | None => if bool_decide (c ∈ cols) then Some (row c) else None
  end.
Proof.
  induction cols as [|col cols IH]; intros d c; simpl.
  - destruct (dict_get c d); auto.
  - rewrite IH. unfold merge_step, dict_mem.
    destruct (dict_get col d) as [v|] eqn:Hcol.
    + destruct (dict_get c d) as [v'|] eqn:Hc; auto.
      assert (c <> col) by congruence.
      destruct (bool_decide_reflect (c ∈ cols)) as [Hin|Hnin].
      * rewrite bool_decide_eq_true_2; auto. apply elem_of_cons; auto.
      * rewrite bool_decide_eq_false_2; auto. rewrite elem_of_cons. tauto.
    + rewrite dict_get_set.
      destruct (bool_decide_reflect (c = col)) as [->|Hne].
      * rewrite Hcol. rewrite bool_decide_eq_true_2; auto. apply elem_of_cons; auto.
      * destruct (dict_get c d); auto.
        destruct (bool_decide_reflect (c ∈ cols)) as [Hin|Hnin].
        -- rewrite bool_decide_eq_true_2; auto. apply elem_of_cons; auto.
        -- rewrite bool_decide_eq_false_2; auto. rewrite elem_of_cons. tauto.
Qed.
End Merge.

Lemma compile_result_get cols row sym md sd c :
  dict_get c (compile_result cols row sym md sd) =
  match dict_get c (zip final_new_cols (extracted row sym md sd)) with
  | Some v => Some v
  | None => if bool_decide (c ∈ cols) then Some (row c) else None
  end.
Proof.
  unfold compile_result. fold (merge_step row). rewrite dict_get_merge. reflexivity.
Qed.




(** ** Upper-casing keeps a name non-empty *)
Section Upper.
Context {RT : PyRuntime}.

Lemma upper_char_nonempty c : upper_char c <> [].
Proof.
  unfold upper_char. destruct (c <? 128)%N; [discriminate|apply uni_upper_nonempty].
Qed.

Lemma upper_nil s : upper s = [] <-> s = [].
Proof.
  split; [|intros ->; reflexivity].
  destruct s as [|c s]; auto. unfold upper. simpl. intros Hu.
  apply app_eq_nil in Hu as [Hc _]. destruct (upper_char_nonempty c Hc).
Qed.

Lemma normalized_name_blank row : normalized_name row = [] <-> blank row = true.
Proof.
  unfold normalized_name, blank. rewrite upper_nil.
  destruct (strip _); split; congruence.
Qed.
End Upper.

(** ** The loop, row by row *)
Section Loop.
Context {RT : PyRuntime} {markup tag : Type} {lib : Soup markup tag}
        {PD : Pandas}.
Variable w : world markup.
Variable cols : list pystr.

Lemma progress_defined total_rows index :
  Z.of_nat index + 1 <= total_rows ->
  Float.int_truediv (Z.of_nat index + 1) total_rows
  = Some (progress_at total_rows index).
Proof.
  intros Hle.
  assert (Hbound : Z.abs (Z.of_nat index + 1) < Z.abs total_rows * 2 ^ 1023).
  { assert (2 <= 2 ^ 1023) by (apply (Z.pow_le_mono_r 2 1 1023); lia).
    rewrite !Z.abs_eq by lia.
    apply Z.le_lt_trans with (total_rows * 1); [lia|].
    apply Z.mul_lt_mono_pos_l; lia. }
  assert (Hnz : total_rows <> 0) by lia.
  rewrite (FloatFacts.int_truediv_in_range _ _ Hnz Hbound).
  unfold progress_at.
  destruct (Z.ltb_spec (Z.of_nat index + 1) 0); try lia.
  destruct (Z.ltb_spec total_rows 0); try lia.
  rewrite !Z.abs_eq by lia. reflexivity.
Qed.

Lemma iteration_spec total_rows index row :
  Z.of_nat index + 1 <= total_rows ->
  iteration w cols total_rows index row
  = (Ok (row_outcome w cols index row),
     EvProgress (progress_at total_rows index) :: row_events w index row).
Proof.
  intros Hle. unfold iteration. rewrite progress_defined by auto.
  unfold row_outcome, row_events.
  destruct (blank row) eqn:Hb.
  - apply normalized_name_blank in Hb. rewrite Hb. reflexivity.
  - destruct (normalized_name row) as [|c s] eqn:Hn.
    + apply normalized_name_blank in Hn. congruence.
    + unfold row_result, row_market, row_screener. rewrite Hn.
      destruct (resolve (c :: s)) as [full_symbol screener_name_for_url].
      reflexivity.
Qed.

Lemma loop_spec total_rows todo : forall index,
  Z.of_nat (index + length todo) <= total_rows ->
  loop w cols total_rows index todo
  = (Ok (results_from w cols index todo), events_from w total_rows index todo).
Proof.
  induction todo as [|row rest IH]; intros index Hle; simpl.
  - reflexivity.
  - rewrite iteration_spec by (simpl in Hle; lia).
    rewrite IH by (simpl in Hle; lia). reflexivity.
Qed.

End Loop.

Section RunSpec.
Context {RT : PyRuntime} {markup tag : Type} {lib : Soup markup tag}
        {PD : Pandas}.

Lemma run_spec (w : world markup) df :
  lit "Stock Name" ∈ columns df ->
  run w df =
  Some (Ok (results_from w (columns df) 0 (rows df),
            export (columns df) (results_from w (columns df) 0 (rows df))),
        events_from w (Z.of_nat (length (rows df))) 0 (rows df)).
Proof.
  intros Hin. unfold run. rewrite bool_decide_eq_true_2 by auto.
  rewrite loop_spec by (simpl; lia). reflexivity.
Qed.

(** The results are those of the rows that are not blank, in order. *)
Lemma results_from_filter (w : world markup) cols todo : forall index,
  Forall2 (fun row d => exists i, d = row_result w cols i row)
          (List.filter (fun row => negb (blank row)) todo)
          (results_from w cols index todo).
Proof.
  induction todo as [|row rest IH]; intros index; simpl.
  - constructor.
  - unfold row_outcome. destruct (blank row); simpl; auto.
    constructor; eauto.
Qed.

Lemma progress_values_events (w : world markup) total_rows todo : forall index,
  progress_values (events_from w total_rows index todo)
  = List.map (progress_at total_rows) (seq index (length todo)).
Proof.
  induction todo as [|row rest IH]; intros index; simpl; auto.
  unfold progress_values in *. simpl. f_equal.
  rewrite omap_app, IH.
  assert (Hrow : omap (fun e => match e with EvProgress v => Some v | _ => None end)
                      (row_events w index row) = []).
  { unfold row_events. destruct (blank row); auto. simpl.
    destruct (yf_warning _); reflexivity. }
  rewrite Hrow. reflexivity.
Qed.
End RunSpec.

(** ** C4 *)

Lemma replace_space_filter s :
  replace Ch.space [] s = List.filter (fun c => negb (c =? Ch.space)%N) s.
Proof.
  induction s as [|c s IH]; simpl; auto.
  destruct (c =? Ch.space)%N; simpl; congruence.
Qed.

(** C4 (amended). The three names of the override table resolve to their
    configured pairs; every other name, empty or not, resolves to the name
    with each U+0020 space removed (tabs, no-break spaces and other white
    space stay) followed by [.NS], and to the name itself. *)
Theorem C4_resolve_override_or_fallback :
  resolve (lit "INFOSYS") = (lit "INFY.NS", lit "INFOSYS")
  /\ resolve (lit "HDFC") = (lit "HDFCBANK.NS", lit "HDFCBANK")
  /\ resolve (lit "L&T") = (lit "LT.NS", lit "LT")
  /\ forall stock_name : pystr,
       stock_name ∉ [lit "INFOSYS"; lit "HDFC"; lit "L&T"] ->
       resolve stock_name
       = (List.filter (fun c => negb (c =? Ch.space)%N) stock_name ++ lit ".NS",
          stock_name).
Proof.
  repeat split; try reflexivity.
  intros stock_name Hn. unfold resolve, SYMBOL_MAP.
  rewrite !not_elem_of_cons in Hn. destruct Hn as (H1 & H2 & H3 & _).
  rewrite !lookup_insert_ne by congruence.
  rewrite lookup_empty, replace_space_filter. reflexivity.
Qed.

Lemma C4_resolve_witness :
  (lit "TATA MOTORS" ∉ [lit "INFOSYS"; lit "HDFC"; lit "L&T"])
  /\ resolve (lit "TATA MOTORS") = (lit "TATAMOTORS.NS", lit "TATA MOTORS").
Proof.
  assert (Hn : lit "TATA MOTORS" ∉ [lit "INFOSYS"; lit "HDFC"; lit "L&T"]).
  { rewrite !not_elem_of_cons. repeat split; try discriminate. apply not_elem_of_nil. }
  split; [exact Hn|].
  exact (proj2 (proj2 (proj2 C4_resolve_override_or_fallback)) _ Hn).
Defined.

(** A name with a tab inside survives trimming and upper-casing, and its
    fallback symbol keeps the tab: not "all whitespace removed". *)
Lemma C4_counterexample :
  let stock_name := lit "TATA" ++ [Ch.tab] ++ lit "MOTORS" in
  upper (RT := Ascii7.runtime) (strip stock_name) = stock_name
  /\ resolve stock_name = (lit "TATA" ++ [Ch.tab] ++ lit "MOTORS.NS", stock_name)
  /\ resolve stock_name <> spec_fallback stock_name.
Proof. repeat split; try reflexivity. discriminate. Qed.

(** ** C5 *)

(** C5 (amended). A value that is neither [int] nor [float] gives ["N/A"];
    a float gives [round(raw / 10000000, 2)]; so does an integer whose
    quotient is in the float range, which covers every integer below
    [10^7 * 2^1023] in magnitude, while beyond the range the division's
    [OverflowError] is caught and the value stays ["N/A"]. 123456789 gives
    12.35. A [bool] counts as the integer 1 or 0, and gives 0.0. When the
    division overflows the warning is shown and the price read before it is
    kept; for every other [marketCap] entry, and without one, no warning is
    shown. *)
Theorem C5_market_cap_normalized :
  (forall raw, is_int_or_float raw = false -> market_cap_cr raw = NA)
  /\ (forall x, market_cap_cr (PyFloat x)
                = PyFloat (Float.round2 (Float.div x (f64 10000000))))
  /\ (forall n, market_cap_cr (PyInt n)
                = match Float.int_truediv n 10000000 with
                  | Some q => PyFloat (Float.round2 q)
                  | None => NA
                  end)
  /\ (forall n, Z.abs n < 10000000 * 2 ^ 1023 ->
                market_cap_cr (PyInt n)
                = PyFloat (Float.round2
                             (Float.nearest (n <? 0) (Z.abs n) 10000000)))
  /\ market_cap_cr (PyInt 123456789) = PyFloat (f64 12.35)
  /\ (forall b : bool,
        is_int_or_float (PyBool b) = true
        /\ market_cap_cr (PyBool b) = market_cap_cr (PyInt (if b then 1 else 0))
        /\ market_cap_cr (PyBool b) = PyFloat (f64 0))
  /\ (forall (data_yf : gmap pystr pyval) n,
        data_yf !! lit "marketCap" = Some (PyInt n) ->
        Float.int_truediv n 10000000 = None ->
        fetch_market_data (Ok data_yf)
        = {| current_price := default NA (data_yf !! lit "currentPrice");
             market_cap_value := NA;
             yf_warning := true |})
  /\ (forall (data_yf : gmap pystr pyval),
        match data_yf !! lit "marketCap" with
        | Some (PyInt n) => Float.int_truediv n 10000000 <> None
        | _ => True
        end ->
        fetch_market_data (Ok data_yf)
        = {| current_price := default NA (data_yf !! lit "currentPrice");
             market_cap_value :=
               market_cap_cr (default NA (data_yf !! lit "marketCap"));
             yf_warning := false |}).
Proof.
  split; [|split; [|split; [|split; [|split; [|split; [|split]]]]]].
  - intros raw Hr. unfold market_cap_cr, market_cap. rewrite Hr. reflexivity.
  - intros x. reflexivity.
  - intros n. unfold market_cap_cr, market_cap. simpl.
    fold ten_million. destruct (Float.int_truediv n ten_million); reflexivity.
  - intros n Hn. unfold market_cap_cr, market_cap. simpl.
    unfold ten_million.
    rewrite (FloatFacts.int_truediv_in_range n 10000000) by (try discriminate; lia).
    simpl. rewrite xorb_false_r. reflexivity.
  - vm_compute. reflexivity.
  - intros [|]; repeat split; vm_compute; reflexivity.
  - intros data_yf n Hraw Hdiv. unfold fetch_market_data, market_cap.
    rewrite Hraw. simpl. fold ten_million in Hdiv |- *. rewrite Hdiv. reflexivity.
  - intros data_yf Hraw. unfold fetch_market_data, market_cap_cr, market_cap.
    destruct (data_yf !! lit "marketCap") as [[|b|n|x|s]|]; simpl; try reflexivity.
    + destruct b; reflexivity.
    + fold ten_million in Hraw |- *.
      destruct (Float.int_truediv n ten_million); [reflexivity|congruence].
Qed.

Lemma C5_market_cap_witness :
  (Z.abs 50000 < 10000000 * 2 ^ 1023
   /\ market_cap_cr (PyInt 50000) = PyFloat (f64 0.01))
  /\ (is_int_or_float PyNone = false /\ market_cap_cr PyNone = NA)
  /\ (let data_yf : gmap pystr pyval :=
        <[lit "marketCap" := PyInt (10 ^ 316)]>
          (<[lit "currentPrice" := PyFloat (f64 101.5)]> ∅) in
      data_yf !! lit "marketCap" = Some (PyInt (10 ^ 316))
      /\ Float.int_truediv (10 ^ 316) 10000000 = None
      /\ fetch_market_data (Ok data_yf)
         = {| current_price := default NA (data_yf !! lit "currentPrice");
              market_cap_value := NA;
              yf_warning := true |}).
Proof.
  assert (Hb : Z.abs 50000 < 10000000 * 2 ^ 1023) by (vm_compute; reflexivity).
  assert (Hn : is_int_or_float PyNone = false) by reflexivity.
  split; [split; [assumption|]|split; [split; [assumption|]|]].
  - rewrite (proj1 (proj2 (proj2 (proj2 C5_market_cap_normalized))) 50000 Hb).
    vm_compute. reflexivity.
  - exact (proj1 C5_market_cap_normalized PyNone Hn).
  - intros data_yf.
    assert (Hraw : data_yf !! lit "marketCap" = Some (PyInt (10 ^ 316)))
      by reflexivity.
    assert (Hdiv : Float.int_truediv (10 ^ 316) 10000000 = None)
      by (vm_compute; reflexivity).
    split; [exact Hraw|]. split; [exact Hdiv|].
    exact (proj1 (proj2 (proj2 (proj2 (proj2 (proj2 (proj2
             C5_market_cap_normalized)))))) data_yf (10 ^ 316) Hraw Hdiv).
Defined.

(** An integer of 317 digits is numeric, and its market cap is ["N/A"]. *)
Lemma C5_counterexample :
  is_int_or_float (PyInt (10 ^ 316)) = true
  /\ market_cap_cr (PyInt (10 ^ 316)) = NA
  /\ fetch_market_data (Ok (<[lit "marketCap" := PyInt (10 ^ 316)]>
                           (<[lit "currentPrice" := PyFloat (f64 101.5)]> ∅)))
     = {| current_price := PyFloat (f64 101.5); market_cap_value := NA;
          yf_warning := true |}.
Proof. repeat split; vm_compute; reflexivity. Qed.

(** ** C6 *)
Section Fetch.
Context {RT : PyRuntime} {markup tag : Type} {lib : Soup markup tag}
        {PD : Pandas}.

(** C6. The request is a GET of
    [https://www.screener.in/company/<identifier>/consolidated/], the
    identifier having spaces replaced by hyphens and ampersands by [%26],
    with [User-Agent: Mozilla/5.0] and a timeout of 10 seconds; the function
    always returns, and when the fetch fails both fields are ["N/A"]; when
    it succeeds the fields are what the extractor finds in the parsed
    body. *)
Theorem C6_fetch_fundamentals
    (get : request -> http_outcome markup) (stock_name identifier : pystr) :
  let r := {| url := lit "https://www.screener.in/company/"
                     ++ replace Ch.ampersand (lit "%26")
                          (replace Ch.space [Ch.hyphen] identifier)
                     ++ lit "/consolidated/";
              headers := [(lit "User-Agent", lit "Mozilla/5.0")];
              timeout := 10 |} in
  exists data,
    scrape_screener_data_minimal get stock_name identifier = (data, r)
    /\ (fetch_failed (get r) ->
        data = {| pe_ratio := NA; interest_cr := NA |})
    /\ (forall status_code content soup,
          get r = HttpResponse status_code content ->
          ~ 400 <= status_code < 600 ->
          BeautifulSoup content = Ok soup ->
          data = scrape_soup soup {| pe_ratio := NA; interest_cr := NA |}).
Proof.
  intros r. exists (scrape_outcome (get r)). split; [reflexivity|]. split.
  - unfold fetch_failed, scrape_outcome. destruct (get r) as [e|st content]; auto.
    intros [Hst|[e He]].
    + unfold raise_for_status.
      destruct (Z.leb_spec 400 st); [|lia]. destruct (Z.ltb_spec st 600); [|lia].
      reflexivity.
    + destruct (raise_for_status st); auto. rewrite He. reflexivity.
  - intros st content soup Hget Hst Hsoup. unfold scrape_outcome.
    rewrite Hget. unfold raise_for_status.
    destruct (Z.leb_spec 400 st); simpl.
    + destruct (Z.ltb_spec st 600); [lia|]. rewrite Hsoup. reflexivity.
    + rewrite Hsoup. reflexivity.
Qed.
End Fetch.

Lemma Forall2_map_right {A B C : Type} (P : A -> C -> Prop) (f : B -> C) l k :
  Forall2 (fun x y => P x (f y)) l k -> Forall2 P l (List.map f k).
Proof. induction 1; simpl; constructor; auto. Qed.

(** ** The exported table *)


Section ExportedTable.
Context {PD : Pandas}.

Lemma export_spec (cols : list pystr) (results : list pydict) (t : table) :
  export cols results = Some t ->
  let order :=
    final_new_cols
    ++ List.filter (fun col => negb (bool_decide (col ∈ final_new_cols))) cols in
  out_columns t = order
  /\ out_rows t
     = List.map
         (row_of (List.map (fun c => DataFrame_column (key_values c results)) order))
         (seq 0 (length results)).
Proof.
  unfold export. destruct results as [|d ds] eqn:Hres; [discriminate|].
  rewrite <- Hres. intros Hex. assert (Ht : Some t = Some t) by reflexivity.
  rewrite <- Hex in Ht at 1. injection Ht as <-. split; reflexivity.
Qed.

End ExportedTable.

Section Rows.
Context {RT : PyRuntime} {markup tag : Type} {lib : Soup markup tag}
        {PD : Pandas}.

(** C7 (amended). The row is skipped when its name, made a string and
    trimmed, is empty: for a cell that holds a string, exactly when the
    string is empty or white space only. A cell without a value is not
    skipped: [None] and NaN, which is what an empty cell is read as, make
    the strings ["None"] and ["nan"]. With a ['Stock Name'] column the run
    ends normally, and its results are, in input order, one per row that
    is not skipped; a skipped row leaves nothing behind. *)
Theorem C7_blank_rows_are_skipped (w : world markup) (df : dataframe) :
  (forall (row : series) s,
     row (lit "Stock Name") = PyStr s -> (blank row = true <-> strip s = []))
  /\ (forall row : series,
        row (lit "Stock Name") = PyNone \/ row (lit "Stock Name") = nan ->
        blank row = false)
  /\ (lit "Stock Name" ∈ columns df ->
      exists results evs,
        run w df = Some (Ok (results, export (columns df) results), evs)
        /\ Forall2
             (fun row d =>
                dict_get (lit "Stock Name") d = Some (row (lit "Stock Name"))
                /\ exists full_symbol md sd,
                     d = compile_result (columns df) row full_symbol md sd)
             (List.filter (fun row => negb (blank row)) (rows df)) results
        /\ length results
           = length (List.filter (fun row => negb (blank row)) (rows df))).
Proof.
  split; [|split].
  - intros row s Hs. unfold blank. rewrite Hs. simpl.
    destruct (strip s); split; congruence.
  - intros row [Hn|Hn]; unfold blank; rewrite Hn; reflexivity.
  - intros Hin. rewrite (run_spec w df Hin).
    eexists _, _. split; [reflexivity|].
    assert (HF : Forall2
           (fun row d =>
              dict_get (lit "Stock Name") d = Some (row (lit "Stock Name"))
              /\ exists full_symbol md sd,
                   d = compile_result (columns df) row full_symbol md sd)
           (List.filter (fun row => negb (blank row)) (rows df))
           (results_from w (columns df) 0 (rows df))).
    { eapply Forall2_impl; [apply results_from_filter|].
      intros row d [i ->]. split.
      - unfold row_result. rewrite compile_result_get. reflexivity.
      - unfold row_result. eauto. }
    split; [exact HF|]. symmetry. eapply Forall2_length; eauto.
Qed.

End Rows.

Section Progress.
Context {RT : PyRuntime} {markup tag : Type} {lib : Soup markup tag}
        {PD : Pandas}.

Lemma row_events_no_progress (w : world markup) index row v :
  EvProgress v ∉ row_events w index row.
Proof.
  unfold row_events. destruct (blank row); [apply not_elem_of_nil|].
  destruct (yf_warning _); simpl; rewrite !not_elem_of_cons;
    repeat split; try discriminate; apply not_elem_of_nil.
Qed.

(** C9 (amended). With a ['Stock Name'] column and fewer than [2^53] rows,
    the trace of the run is, row after row, the progress update of the row
    followed by what processing the row does (nothing for a skipped row):
    the update is made at the start of the turn, before the row is looked
    at. The update of the row at position [i] carries the float nearest to
    [(i + 1) / total_rows], and the values emitted increase strictly. *)
Theorem C9_progress_precedes_each_row (w : world markup) (df : dataframe) :
  lit "Stock Name" ∈ columns df ->
  Z.of_nat (length (rows df)) < 2 ^ 53 ->
  let total_rows := Z.of_nat (length (rows df)) in
  exists out evs,
    run w df = Some (Ok out, evs)
    /\ evs = events_from w total_rows 0 (rows df)
    /\ (forall index row v, EvProgress v ∉ row_events w index row)
    /\ progress_values evs
       = List.map (fun index => Float.nearest false (Z.of_nat index + 1) total_rows)
                  (seq 0 (length (rows df)))
    /\ (forall i j x y,
          (i < j)%nat ->
          progress_values evs !! i = Some x ->
          progress_values evs !! j = Some y ->
          Float.ltb x y = true).
Proof.
  intros Hin Hlen total_rows. rewrite (run_spec w df Hin).
  eexists _, _. split; [reflexivity|]. split; [reflexivity|].
  split; [intros; apply row_events_no_progress|].
  rewrite progress_values_events. split; [reflexivity|].
  intros i j x y Hij Hi Hj.
  rewrite list_lookup_fmap in Hi, Hj.
  destruct (seq 0 (length (rows df)) !! i) as [i'|] eqn:Hi'; [|discriminate].
  destruct (seq 0 (length (rows df)) !! j) as [j'|] eqn:Hj'; [|discriminate].
  apply lookup_seq in Hi' as [-> Hil]. apply lookup_seq in Hj' as [-> Hjl].
  simpl in Hi, Hj. injection Hi as <-. injection Hj as <-.
  unfold progress_at. apply FloatFacts.nearest_lt; lia.
Qed.
End Progress.

Section Missing.
Context {RT : PyRuntime} {markup tag : Type} {lib : Soup markup tag}
        {PD : Pandas}.

Lemma results_from_elem (w : world markup) cols total_rows row todo :
  row ∈ todo -> blank row = false ->
  forall index,
  exists i, row_result w cols i row ∈ results_from w cols index todo
            /\ EvGet (screener_request (snd (resolve (normalized_name row))))
               ∈ events_from w total_rows index todo.
Proof.
  intros Hin Hb. induction Hin as [row rest|row row' rest Hin IH]; intros index; simpl.
  - exists index. unfold row_outcome, row_events. rewrite Hb. simpl. split.
    + apply list_elem_of_here.
    + do 3 apply list_elem_of_further. apply elem_of_app. left.
      apply elem_of_app. right. apply list_elem_of_here.
  - destruct (IH Hb (S index)) as (i & Hi & He). exists i. split.
    + apply elem_of_app. right. auto.
    + apply list_elem_of_further. apply elem_of_app. right. auto.
Qed.

Lemma nan_name (row : series) :
  row (lit "Stock Name") = nan ->
  normalized_name row = lit "NAN" /\ blank row = false.
Proof.
  intros Hn. unfold normalized_name, blank. rewrite Hn. split; reflexivity.
Qed.

(** C10. A row whose ['Stock Name'] cell is NaN is not skipped: its name
    becomes ["NAN"], which resolves by the fallback to ["NAN.NS"] and
    ["NAN"], the Screener page of ["NAN"] is requested, and a result for
    the row is among those of the run. *)
Theorem C10_missing_name_is_processed (w : world markup) (df : dataframe)
    (row : series) :
  lit "Stock Name" ∈ columns df ->
  row ∈ rows df ->
  row (lit "Stock Name") = nan ->
  normalized_name row = lit "NAN"
  /\ blank row = false
  /\ resolve (lit "NAN") = (lit "NAN.NS", lit "NAN")
  /\ exists results evs,
       run w df = Some (Ok (results, export (columns df) results), evs)
       /\ EvGet (screener_request (lit "NAN")) ∈ evs
       /\ exists d, d ∈ results
            /\ dict_get (lit "Stock Name") d = Some nan
            /\ dict_get (lit "YF Symbol Used") d = Some (PyStr (lit "NAN.NS")).
Proof.
  intros Hin Hrow Hn. destruct (nan_name row Hn) as [Hname Hb].
  split; [exact Hname|]. split; [exact Hb|]. split; [reflexivity|].
  rewrite (run_spec w df Hin). eexists _, _. split; [reflexivity|].
  destruct (results_from_elem w (columns df) (Z.of_nat (length (rows df)))
              row (rows df) Hrow Hb 0%nat) as (i & Hi & He).
  rewrite Hname in He. split; [exact He|].
  exists (row_result w (columns df) i row). split; [exact Hi|].
  unfold row_result. rewrite !compile_result_get, Hname. split.
  - change (Some (row (lit "Stock Name")) = Some nan). congruence.
  - reflexivity.
Qed.
End Missing.

(** ** The ratio list of a parsed document *)
Section DomRatio.
Context {RT : PyRuntime}.
Import Dom.

Lemma ratio_entry_dom (li : tag) (pe : pyval) :
  ratio_entry (lib := Dom.soup) li pe
  = Ok (match entry_texts li with
        | Some e => entry_step pe e
        | None => pe
        end).
Proof.
  unfold ratio_entry, entry_texts, entry_step. simpl.
  fold (first_span (lit "name") li). fold (first_span (lit "value") li).
  destruct (first_span (lit "name") li) as [n|]; simpl; auto.
  destruct (first_span (lit "value") li) as [v|]; simpl; auto.
  destruct (contains _ _); auto. apply float_or_na_numeric_field.
Qed.

Lemma ratio_loop_dom (lis : list tag) : forall pe,
  ratio_loop (lib := Dom.soup) lis pe
  = (fold_left entry_step (omap entry_texts lis) pe, None).
Proof.
  induction lis as [|li rest IH]; intros pe; simpl; auto.
  rewrite ratio_entry_dom. rewrite IH.
  destruct (entry_texts li); reflexivity.
Qed.

Lemma last_cons_default {A} (x : A) l :
  last (x :: l) = Some (default x (last l)).
Proof.
  revert x. induction l as [|y l IH]; intros x; simpl; auto.
  rewrite IH. simpl. destruct (last l); reflexivity.
Qed.

Lemma fold_entry_step entries : forall pe,
  fold_left entry_step entries pe
  = match last (List.filter (fun e => contains (lit "P/E") (clean_ratio_name (fst e)))
                            entries) with
    | Some e => numeric_field (clean_ratio_value (snd e))
    | None => pe
    end.
Proof.
  induction entries as [|e rest IH]; intros pe; simpl; auto.
  rewrite IH. unfold entry_step.
  destruct (contains (lit "P/E") (clean_ratio_name (fst e))) eqn:Hc; auto.
  rewrite last_cons_default.
  destruct (last (List.filter _ rest)); reflexivity.
Qed.

(** C3 (amended). On a parsed document the P/E extraction never raises and
    returns what the LAST entry of the ratio list whose label contains
    ["P/E"] (trimmed, newlines as spaces, upper-cased) holds: the float of
    its value once trimmed and rid of the rupee sign, percent signs and
    commas, or ["N/A"] when that is no strict decimal; without the list or
    without such an entry it returns ["N/A"]. Entries lacking a name or a
    value span do not count. *)
Theorem C3_extract_ratio_last_match (soup : tag) :
  extract_ratio (lib := Dom.soup) soup NA
  = (last_match (ratio_entries soup), None).
Proof.
  unfold extract_ratio, ratio_entries, last_match. simpl.
  destruct (head (search soup (matches_selector (doc soup) ratio_list_selector)))
    as [ul|]; simpl; auto.
  rewrite ratio_loop_dom, fold_entry_step. reflexivity.
Qed.
End DomRatio.

(** ** C1 *)
Section Parsers.
Context {RT : PyRuntime}.

(** C1 (amended). Each parser has its own normalisation. The ratio parser
    trims the text and deletes every rupee sign, percent sign and comma;
    the statement parser trims it and deletes every comma, hyphen and
    space. On the text so normalised, less one final newline, each returns
    the float of the strict decimal (optional leading minus, digits,
    optional point and digits) when it is one and ["N/A"] when it is not,
    and never raises; for the statement parser this is stated for texts
    without a hyphen. In the ratio parser ["1,234.50"] gives 1234.5,
    ["₹45.2%"] 45.2, ["-"] ["N/A"] and ["-123.4"] -123.4; in the statement
    parser ["1,234.50"] gives 1234.5 and ["-"] ["N/A"]. *)
Theorem C1_parsers_normalize_then_match :
  (forall text,
     float_or_na (clean_ratio_value text)
     = Ok (numeric_field (clean_ratio_value text)))
  /\ (forall text,
        Ch.hyphen ∉ text ->
        float_or_na (clean_table_value text)
        = Ok (numeric_field (clean_table_value text)))
  /\ float_or_na (clean_ratio_value (lit "1,234.50")) = Ok (PyFloat (f64 1234.5))
  /\ float_or_na (clean_ratio_value (Ch.rupee :: lit "45.2%"))
     = Ok (PyFloat (f64 45.2))
  /\ float_or_na (clean_ratio_value (lit "-")) = Ok NA
  /\ float_or_na (clean_ratio_value (lit "-123.4")) = Ok (PyFloat (f64 (-123.4)))
  /\ float_or_na (clean_table_value (lit "1,234.50")) = Ok (PyFloat (f64 1234.5))
  /\ float_or_na (clean_table_value (lit "-")) = Ok NA.
Proof.
  split; [|split].
  - intros text. apply float_or_na_numeric_field.
  - intros text _. apply float_or_na_numeric_field.
  - repeat split; vm_compute; reflexivity.
Qed.
End Parsers.

Lemma C1_parsers_witness :
  (Ch.hyphen ∉ lit "1,234.50")
  /\ float_or_na (RT := Ascii7.runtime) (clean_table_value (lit "1,234.50"))
     = Ok (PyFloat (f64 1234.5)).
Proof.
  assert (Hn : Ch.hyphen ∉ lit "1,234.50").
  { intros Hin. apply list_elem_of_In in Hin. simpl in Hin.
    repeat (destruct Hin as [Hin|Hin]; [discriminate|]). exact Hin. }
  split; [exact Hn|].
  rewrite (proj1 (proj2 (C1_parsers_normalize_then_match (RT := Ascii7.runtime))) _ Hn).
  vm_compute. reflexivity.
Defined.

(** The statement parser drops the sign of ["-123.4"] and does not strip
    the rupee and percent signs of ["₹45.2%"]; the ratio parser does not
    strip the space inside ["1 234"]. One normalisation with all the
    strippings the specification lists would give -123.4, 45.2 and 1234. *)
Lemma C1_counterexample :
  float_or_na (RT := Ascii7.runtime) (clean_table_value (lit "-123.4"))
  = Ok (PyFloat (f64 123.4))
  /\ numeric_field (RT := Ascii7.runtime) (spec_normalize (lit "-123.4"))
     = PyFloat (f64 (-123.4))
  /\ float_or_na (RT := Ascii7.runtime)
       (clean_table_value (Ch.rupee :: lit "45.2%")) = Ok NA
  /\ numeric_field (RT := Ascii7.runtime) (spec_normalize (Ch.rupee :: lit "45.2%"))
     = PyFloat (f64 45.2)
  /\ float_or_na (RT := Ascii7.runtime) (clean_ratio_value (lit "1 234")) = Ok NA
  /\ numeric_field (RT := Ascii7.runtime) (spec_normalize (lit "1 234"))
     = PyFloat (f64 1234).
Proof. repeat split; vm_compute; reflexivity. Qed.

(** ** Witnesses and counterexamples on the concrete inputs *)
Section Concrete.
Import Example.

(** The first matching entry holds 25.3, the code returns the 30.1 of the
    last one. *)
Lemma C3_counterexample :
  spec_first_match (RT := Ascii7.runtime) (ratio_entries soup) = PyFloat (f64 25.3)
  /\ extract_ratio (RT := Ascii7.runtime) (lib := lib) soup NA
     = (PyFloat (f64 30.1), None).
Proof. repeat split; vm_compute; reflexivity. Qed.

Lemma C6_fetch_fundamentals_witness :
  fetch_failed (lib := lib) (HttpResponse 404 page)
  /\ scrape_screener_data_minimal (RT := Ascii7.runtime) (lib := lib)
       (fun _ => HttpResponse 404 page) (lit "L&T FINANCE") (lit "L&T FINANCE")
     = ({| pe_ratio := NA; interest_cr := NA |},
        {| url := lit "https://www.screener.in/company/L%26T-FINANCE/consolidated/";
           headers := [(lit "User-Agent", lit "Mozilla/5.0")];
           timeout := 10 |}).
Proof.
  assert (Hf : fetch_failed (lib := lib) (HttpResponse 404 page)).
  { left. lia. }
  split; [exact Hf|].
  destruct (C6_fetch_fundamentals (RT := Ascii7.runtime) (lib := lib)
              (fun _ => HttpResponse 404 page) (lit "L&T FINANCE") (lit "L&T FINANCE"))
    as (data & Heq & Hfail & _).
  rewrite Heq, (Hfail Hf). reflexivity.
Defined.

Lemma frame_has_name : lit "Stock Name" ∈ columns frame.
Proof. apply list_elem_of_here. Qed.

Lemma C7_blank_rows_are_skipped_witness :
  (lit "Stock Name" ∈ columns frame)
  /\ (exists results evs,
        run (RT := Ascii7.runtime) (lib := lib) (PD := as_given) online frame
        = Some (Ok (results, export (PD := as_given) (columns frame) results), evs)
        /\ length results = 2%nat)
  /\ (series_of [(lit "Sector", PyStr (lit "unknown"))] (lit "Stock Name") = nan
      /\ blank (RT := Ascii7.runtime)
           (series_of [(lit "Sector", PyStr (lit "unknown"))]) = false).
Proof.
  split; [exact frame_has_name|]. split.
  - destruct (proj2 (proj2 (C7_blank_rows_are_skipped (RT := Ascii7.runtime)
                              (lib := lib) (PD := as_given) online frame))
                frame_has_name) as (results & evs & Hrun & _ & Hlen).
    exists results, evs. split; [exact Hrun|]. rewrite Hlen. reflexivity.
  - split; [reflexivity|].
    exact (proj1 (proj2 (C7_blank_rows_are_skipped (RT := Ascii7.runtime)
                           (lib := lib) (PD := as_given) online frame))
             _ (or_intror eq_refl)).
Defined.

(** The third row of the frame has an empty name cell. It is not left out:
    of the three rows only the second is, and the run returns a result for
    the name NAN. *)
Lemma C7_counterexample :
  let row := series_of [(lit "Sector", PyStr (lit "unknown"))] in
  (row ∈ rows frame)
  /\ spec_empty_name row = true
  /\ List.map spec_empty_name (rows frame) = [false; true; true]
  /\ exists results t evs,
       run (RT := Ascii7.runtime) (lib := lib) (PD := as_given) online frame
       = Some (Ok (results, t), evs)
       /\ List.map (dict_get (lit "YF Symbol Used")) results
          = [Some (PyStr (lit "INFY.NS")); Some (PyStr (lit "NAN.NS"))]
       /\ List.map (dict_get (lit "Stock Name")) results
          = [Some (PyStr (lit " infosys ")); Some nan].
Proof.
  intros row. split.
  { do 2 apply list_elem_of_further. apply list_elem_of_here. }
  split; [reflexivity|]. split; [reflexivity|].
  rewrite (run_spec (RT := Ascii7.runtime) (lib := lib) (PD := as_given)
             online frame frame_has_name).
  eexists _, _, _. split; [reflexivity|].
  split; vm_compute; reflexivity.
Qed.



(** In a run over one row the single update says 1.0, all rows done, and
    it is made before the row's request, not after. *)
Lemma C9_counterexample :
  (snd <$> run (RT := Ascii7.runtime) (lib := lib) (PD := as_given) offline
             one_row)
  = Some [EvProgress (f64 1); EvWrite (lit "INFOSYS"); EvTicker (lit "INFY.NS");
          EvWarning (lit "INFY.NS"); EvGet (screener_request (lit "INFOSYS"));
          EvSleep 1]
  /\ ~ progress_after_request
         [EvProgress (f64 1); EvWrite (lit "INFOSYS"); EvTicker (lit "INFY.NS");
          EvWarning (lit "INFY.NS"); EvGet (screener_request (lit "INFOSYS"));
          EvSleep 1].
Proof.
  split; [vm_compute; reflexivity|].
  intros Hp.
  specialize (Hp 0%nat 4%nat (f64 1) (screener_request (lit "INFOSYS"))
                eq_refl eq_refl).
  lia.
Qed.

Lemma frame_is_short : Z.of_nat (length (rows frame)) < 2 ^ 53.
Proof. reflexivity. Qed.

Lemma C9_progress_precedes_each_row_witness :
  (lit "Stock Name" ∈ columns frame)
  /\ Z.of_nat (length (rows frame)) < 2 ^ 53
  /\ exists out evs,
       run (RT := Ascii7.runtime) (lib := lib) (PD := as_given) online frame = Some (Ok out, evs)
       /\ progress_values evs
          = [Float.nearest false 1 3; Float.nearest false 2 3; f64 1].
Proof.
  split; [exact frame_has_name|]. split; [exact frame_is_short|].
  destruct (C9_progress_precedes_each_row (RT := Ascii7.runtime) (lib := lib)
              (PD := as_given) online frame frame_has_name frame_is_short)
    as (out & evs & Hrun & _ & _ & Hvals & _).
  exists out, evs. split; [exact Hrun|]. rewrite Hvals. reflexivity.
Defined.

Lemma C10_missing_name_is_processed_witness :
  (lit "Stock Name" ∈ columns frame)
  /\ (series_of [(lit "Sector", PyStr (lit "unknown"))] ∈ rows frame)
  /\ series_of [(lit "Sector", PyStr (lit "unknown"))] (lit "Stock Name") = nan
  /\ normalized_name (RT := Ascii7.runtime)
       (series_of [(lit "Sector", PyStr (lit "unknown"))]) = lit "NAN".
Proof.
  assert (Hrow : series_of [(lit "Sector", PyStr (lit "unknown"))] ∈ rows frame).
  { do 2 apply list_elem_of_further. apply list_elem_of_here. }
  split; [exact frame_has_name|]. split; [exact Hrow|]. split; [reflexivity|].
  exact (proj1 (C10_missing_name_is_processed (RT := Ascii7.runtime) (lib := lib)
                  (PD := as_given) online frame _ frame_has_name Hrow eq_refl)).
Defined.
End Concrete.

(** * Further properties of the code *)

(** ** What normalisation leaves behind *)

Lemma replace_delete_filter (old : N) (s : pystr) :
  replace old [] s = List.filter (fun c => negb (c =? old)%N) s.
Proof.
  induction s as [|c s IH]; simpl; auto.
  destruct (c =? old)%N; simpl; congruence.
Qed.

Lemma filter_filter {A} (f g : A -> bool) (l : list A) :
  List.filter f (List.filter g l) = List.filter (fun x => g x && f x) l.
Proof.
  induction l as [|x l IH]; simpl; auto.
  destruct (g x); simpl; [destruct (f x)|]; simpl; congruence.
Qed.

Lemma replace_absent (old : N) (new s : pystr) (c : N) :
  c ∉ s -> c ∉ new -> c ∉ replace old new s.
Proof.
  intros Hs Hn. induction s as [|a s IH]; simpl; [apply not_elem_of_nil|].
  apply not_elem_of_cons in Hs as [Hca Hs].
  rewrite elem_of_app. intros [Hin|Hin].
  - destruct (a =? old)%N; [auto|]. apply list_elem_of_singleton in Hin. congruence.
  - apply IH; auto.
Qed.

Lemma replace_removes (old : N) (new s : pystr) :
  old ∉ new -> old ∉ replace old new s.
Proof.
  intros Hn. induction s as [|a s IH]; simpl; [apply not_elem_of_nil|].
  rewrite elem_of_app. intros [Hin|Hin]; [|auto].
  destruct (N.eqb_spec a old) as [->|Hne]; [auto|].
  apply list_elem_of_singleton in Hin. congruence.
Qed.

Lemma clean_table_value_clean (text : pystr) :
  (Ch.comma ∉ clean_table_value text)
  /\ (Ch.hyphen ∉ clean_table_value text)
  /\ (Ch.space ∉ clean_table_value text).
Proof.
  unfold clean_table_value. repeat split.
  - apply replace_absent; [|apply not_elem_of_nil].
    apply replace_absent; [|apply not_elem_of_nil].
    apply replace_removes, not_elem_of_nil.
  - apply replace_absent; [|apply not_elem_of_nil].
    apply replace_removes, not_elem_of_nil.
  - apply replace_removes, not_elem_of_nil.
Qed.

Lemma clean_ratio_value_clean (text : pystr) :
  (Ch.rupee ∉ clean_ratio_value text)
  /\ (Ch.percent ∉ clean_ratio_value text)
  /\ (Ch.comma ∉ clean_ratio_value text).
Proof.
  unfold clean_ratio_value. repeat split.
  - apply replace_absent; [|apply not_elem_of_nil].
    apply replace_absent; [|apply not_elem_of_nil].
    apply replace_removes, not_elem_of_nil.
  - apply replace_absent; [|apply not_elem_of_nil].
    apply replace_removes, not_elem_of_nil.
  - apply replace_removes, not_elem_of_nil.
Qed.

(** X1. After normalisation a statement cell holds no comma, hyphen or
    space, and a ratio value no rupee sign, percent sign or comma, whatever
    the text was; nothing but those characters and the white space at both
    ends is taken away. *)
Theorem X1_normalised_text_is_clean (text : pystr) :
  ((Ch.comma ∉ clean_table_value text)
   /\ (Ch.hyphen ∉ clean_table_value text)
   /\ (Ch.space ∉ clean_table_value text))
  /\ ((Ch.rupee ∉ clean_ratio_value text)
      /\ (Ch.percent ∉ clean_ratio_value text)
      /\ (Ch.comma ∉ clean_ratio_value text))
  /\ clean_table_value text
     = List.filter (fun c => negb ((c =? Ch.comma) || (c =? Ch.hyphen)
                                   || (c =? Ch.space))%N) (strip text)
  /\ clean_ratio_value text
     = List.filter (fun c => negb ((c =? Ch.rupee) || (c =? Ch.percent)
                                   || (c =? Ch.comma))%N) (strip text).
Proof.
  split; [apply clean_table_value_clean|].
  split; [apply clean_ratio_value_clean|].
  unfold clean_table_value, clean_ratio_value.
  rewrite !replace_delete_filter, !filter_filter. split.
  - apply filter_ext. intros c.
    destruct (c =? Ch.comma)%N, (c =? Ch.hyphen)%N, (c =? Ch.space)%N; reflexivity.
  - apply filter_ext. intros c.
    destruct (c =? Ch.rupee)%N, (c =? Ch.percent)%N, (c =? Ch.comma)%N; reflexivity.
Qed.

Lemma chomp_subset (s : pystr) (c : N) : c ∈ chomp s -> c ∈ s.
Proof.
  unfold chomp. destruct (rev s) as [|a t] eqn:Hrev; auto.
  destruct (a =? Ch.newline)%N; auto.
  intros Hin. rewrite <- (rev_involutive s), Hrev. simpl.
  apply elem_of_app. left. auto.
Qed.

Lemma nearest_sign (neg : bool) (a b : Z) :
  match Float.nearest neg a b with
  | S754_zero s | S754_infinity s | S754_finite s _ _ => s = neg
  | S754_nan => False
  end.
Proof.
  unfold Float.nearest.
  destruct (a =? 0); [reflexivity|].
  destruct (Float.scaled_rne a b (Float.ulp_exp a b) =? 0); [reflexivity|].
  destruct (Float.scaled_rne a b (Float.ulp_exp a b) =? 2 ^ 53);
    match goal with |- context [if ?c then _ else _] => destruct c end;
    reflexivity.
Qed.

Section Sign.
Context {RT : PyRuntime}.

Lemma strict_decimal_negative v iv fv :
  strict_decimal v = Some (true, iv, fv) -> Ch.hyphen ∈ v.
Proof.
  intros Hs. apply strict_decimal_inv in Hs as (ip & frac & -> & _).
  unfold written. apply list_elem_of_here.
Qed.

(** X2. The statement-cell parser never returns a negative number, never
    NaN and never raises: its result is ["N/A"] or a float with the sign bit
    clear, because every hyphen is deleted before the pattern is tried. The
    ratio parser returns a float whose sign bit is set exactly when the
    normalised value starts with a minus. *)
Theorem X2_statement_values_are_never_negative (text : pystr) :
  match float_or_na (clean_table_value text) with
  | Ok (PyFloat x) => nonnegative x
  | Ok v => v = NA
  | Raise _ => False
  end
  /\ match float_or_na (clean_ratio_value text) with
     | Ok (PyFloat (S754_zero s)) | Ok (PyFloat (S754_infinity s))
     | Ok (PyFloat (S754_finite s _ _)) =>
         s = match chomp (clean_ratio_value text) with
             | c :: _ => (c =? Ch.hyphen)%N
             | [] => false
             end
     | Ok (PyFloat S754_nan) => False
     | Ok v => v = NA
     | Raise _ => False
     end.
Proof.
  rewrite !float_or_na_numeric_field. split.
  - unfold numeric_field.
    destruct (strict_decimal (chomp (clean_table_value text)))
      as [[[neg iv] fv]|] eqn:Hs; [|reflexivity].
    assert (neg = false) as ->.
    { destruct neg; auto. exfalso.
      apply strict_decimal_negative, chomp_subset in Hs.
      destruct (clean_table_value_clean text) as (_ & Hh & _). auto. }
    unfold decimal_float, nonnegative.
    pose proof (nearest_sign false (digits_value (iv ++ fv))
                  (10 ^ Z.of_nat (length fv))) as Hn.
    destruct (Float.nearest _ _ _); auto.
  - unfold numeric_field.
    destruct (strict_decimal (chomp (clean_ratio_value text)))
      as [[[neg iv] fv]|] eqn:Hs; [|reflexivity].
    apply strict_decimal_inv in Hs as (ip & frac & Hw & Hne & Hip & _).
    unfold decimal_float.
    pose proof (nearest_sign neg (digits_value (iv ++ fv))
                  (10 ^ Z.of_nat (length fv))) as Hn.
    assert (Hhead : match chomp (clean_ratio_value text) with
                    | c :: _ => (c =? Ch.hyphen)%N
                    | [] => false
                    end = neg).
    { rewrite Hw. destruct neg; [reflexivity|].
      destruct (written_head false ip frac iv Hne Hip) as (c & Hh & _ & Hc).
      destruct (written false ip frac) as [|a r]; [discriminate|].
      simpl in Hh. injection Hh as ->. apply N.eqb_neq. apply Hc. reflexivity. }
    rewrite Hhead. destruct (Float.nearest _ _ _); auto.
Qed.
End Sign.

(** ** The page address and the symbol *)

Lemma absent_by_test (x : N) (l : pystr) :
  forallb (fun c => negb (c =? x)%N) l = true -> x ∉ l.
Proof.
  intros Hf Hin. apply list_elem_of_In in Hin.
  rewrite forallb_forall in Hf. specialize (Hf x Hin).
  rewrite N.eqb_refl in Hf. discriminate.
Qed.

Lemma replace_identity (old : N) (new s : pystr) :
  old ∉ s -> replace old new s = s.
Proof.
  induction s as [|c s IH]; simpl; auto. intros Hn.
  apply not_elem_of_cons in Hn as [Hne Hn].
  destruct (N.eqb_spec c old); [congruence|]. simpl. rewrite IH; auto.
Qed.

Lemma formatted_name_clean (name : pystr) :
  let formatted_name :=
    replace Ch.ampersand (lit "%26") (replace Ch.space (lit "-") name) in
  (Ch.space ∉ formatted_name) /\ (Ch.ampersand ∉ formatted_name).
Proof.
  split.
  - apply replace_absent; [|apply absent_by_test; reflexivity].
    apply replace_removes. apply absent_by_test. reflexivity.
  - apply replace_removes. apply absent_by_test. reflexivity.
Qed.

(** X3. The address requested never contains a space or an ampersand,
    whatever the identifier; nothing else is encoded: an identifier without
    spaces and ampersands is put into the address as it is. *)
Theorem X3_page_address_has_no_space_or_ampersand (name : pystr) :
  (Ch.space ∉ screener_url name)
  /\ (Ch.ampersand ∉ screener_url name)
  /\ (Ch.space ∉ name -> Ch.ampersand ∉ name ->
      screener_url name
      = lit "https://www.screener.in/company/" ++ name ++ lit "/consolidated/").
Proof.
  destruct (formatted_name_clean name) as [Hs Ha].
  unfold screener_url. repeat split.
  - rewrite !elem_of_app. intros [Hin|[Hin|Hin]]; auto;
      revert Hin; apply absent_by_test; reflexivity.
  - rewrite !elem_of_app. intros [Hin|[Hin|Hin]]; auto;
      revert Hin; apply absent_by_test; reflexivity.
  - intros Hns Hna. rewrite (replace_identity Ch.space) by auto.
    rewrite (replace_identity Ch.ampersand) by auto. reflexivity.
Qed.

Lemma X3_page_address_witness :
  (Ch.space ∉ lit "HDFCBANK") /\ (Ch.ampersand ∉ lit "HDFCBANK")
  /\ screener_url (lit "HDFCBANK")
     = lit "https://www.screener.in/company/HDFCBANK/consolidated/".
Proof.
  assert (Hs : Ch.space ∉ lit "HDFCBANK") by (apply absent_by_test; reflexivity).
  assert (Ha : Ch.ampersand ∉ lit "HDFCBANK") by (apply absent_by_test; reflexivity).
  split; [exact Hs|]. split; [exact Ha|].
  rewrite (proj2 (proj2 (X3_page_address_has_no_space_or_ampersand _)) Hs Ha).
  reflexivity.
Defined.

Lemma resolve_cases (stock_name : pystr) :
  resolve stock_name = (lit "INFY.NS", lit "INFOSYS")
  \/ resolve stock_name = (lit "HDFCBANK.NS", lit "HDFCBANK")
  \/ resolve stock_name = (lit "LT.NS", lit "LT")
  \/ resolve stock_name
     = (replace Ch.space [] stock_name ++ lit ".NS", stock_name).
Proof.
  destruct (decide (stock_name = lit "INFOSYS")) as [->|H1]; [left; reflexivity|].
  destruct (decide (stock_name = lit "HDFC")) as [->|H2];
    [right; left; reflexivity|].
  destruct (decide (stock_name = lit "L&T")) as [->|H3];
    [right; right; left; reflexivity|].
  right; right; right. unfold resolve, SYMBOL_MAP.
  rewrite !lookup_insert_ne by congruence. rewrite lookup_empty. reflexivity.
Qed.

(** X4. Whatever the name, the market-data symbol ends in [.NS] and holds
    no space, and the address built from the fundamentals identifier holds
    no space or ampersand. *)
Theorem X4_resolved_symbols_are_well_formed (stock_name : pystr) :
  (exists stem, fst (resolve stock_name) = stem ++ lit ".NS")
  /\ (Ch.space ∉ fst (resolve stock_name))
  /\ (Ch.space ∉ url (screener_request (snd (resolve stock_name))))
  /\ (Ch.ampersand ∉ url (screener_request (snd (resolve stock_name)))).
Proof.
  split; [|split].
  - destruct (resolve_cases stock_name) as [H|[H|[H|H]]]; rewrite H; simpl.
    + exists (lit "INFY"). reflexivity.
    + exists (lit "HDFCBANK"). reflexivity.
    + exists (lit "LT"). reflexivity.
    + eauto.
  - destruct (resolve_cases stock_name) as [H|[H|[H|H]]]; rewrite H; simpl;
      try (apply absent_by_test; reflexivity).
    rewrite elem_of_app. intros [Hin|Hin].
    + revert Hin. apply replace_removes, not_elem_of_nil.
    + revert Hin. apply absent_by_test. reflexivity.
  - simpl. destruct (formatted_name_clean (snd (resolve stock_name))) as [Hs Ha].
    unfold screener_url. split.
    + rewrite !elem_of_app. intros [Hin|[Hin|Hin]]; auto;
        revert Hin; apply absent_by_test; reflexivity.
    + rewrite !elem_of_app. intros [Hin|[Hin|Hin]]; auto;
        revert Hin; apply absent_by_test; reflexivity.
Qed.

(** ** The result type of the extractors *)

Section FieldType.
Context {RT : PyRuntime} {markup tag : Type} {lib : Soup markup tag}
        {PD : Pandas}.

Lemma numeric_field_type (v : pystr) : numeric_or_na (numeric_field v).
Proof.
  unfold numeric_field. destruct (strict_decimal (chomp v)) as [[[neg iv] fv]|];
    [|reflexivity].
  unfold decimal_float. simpl.
  pose proof (nearest_sign neg (digits_value (iv ++ fv))
                (10 ^ Z.of_nat (length fv))) as Hn.
  destruct (Float.nearest _ _ _); try discriminate. destruct Hn.
Qed.

Lemma float_or_na_type (value : pystr) (v : pyval) :
  float_or_na value = Ok v -> numeric_or_na v.
Proof.
  rewrite float_or_na_numeric_field. intros [= <-]. apply numeric_field_type.
Qed.

Lemma ratio_entry_type (li : tag) (pe v : pyval) :
  numeric_or_na pe -> ratio_entry li pe = Ok v -> numeric_or_na v.
Proof.
  intros Hpe. unfold ratio_entry.
  destruct (find_class li (lit "span") (lit "name")) as [[n|]|]; simpl;
    try discriminate; try (intros [= <-]; exact Hpe);
    destruct (find_class li (lit "span") (lit "value")) as [[v'|]|]; simpl;
    try discriminate; try (intros [= <-]; exact Hpe).
  destruct (text n) as [s1|]; simpl; [|discriminate].
  destruct (text v') as [s2|]; simpl; [|discriminate].
  destruct (contains _ _).
  - apply float_or_na_type.
  - intros [= <-]. exact Hpe.
Qed.

Lemma ratio_loop_type (lis : list tag) : forall pe,
  numeric_or_na pe -> numeric_or_na (fst (ratio_loop lis pe)).
Proof.
  induction lis as [|li rest IH]; intros pe Hpe; simpl; auto.
  destruct (ratio_entry li pe) as [v|e] eqn:He; simpl; auto.
  apply IH. eapply ratio_entry_type; eauto.
Qed.

Lemma extract_ratio_type (soup : tag) (pe : pyval) :
  numeric_or_na pe -> numeric_or_na (fst (extract_ratio soup pe)).
Proof.
  intros Hpe. unfold extract_ratio.
  destruct (select_one soup ratio_list_selector) as [[ul|]|]; simpl; auto.
  destruct (find_all ul (lit "li")); simpl; auto. apply ratio_loop_type; auto.
Qed.

Lemma extract_table_value_type (soup : tag) (table_id row_name : pystr) :
  numeric_or_na (extract_table_value soup table_id row_name).
Proof.
  unfold extract_table_value.
  destruct (extract_table_value_body soup table_id row_name) as [v|e] eqn:Hb;
    [|reflexivity].
  revert Hb. unfold extract_table_value_body.
  destruct (select_one soup (table_selector table_id)) as [[table|]|]; simpl;
    try discriminate; try (intros [= <-]; reflexivity).
  destruct (find_string table (lit "td") row_name) as [[row_td|]|]; simpl;
    try discriminate; try (intros [= <-]; reflexivity).
  destruct (parent row_td) as [[row|]|]; simpl; try discriminate.
  destruct (find_all row (lit "td")) as [data_cols|]; simpl; try discriminate.
  destruct (last data_cols) as [cell|]; try (intros [= <-]; reflexivity).
  destruct (text cell) as [s|]; simpl; [|discriminate].
  apply float_or_na_type.
Qed.

(** X5. Whatever the network answers and whatever the HTML library returns
    or raises, each of the two fields of the data returned is either
    ["N/A"] or a float that is not NaN: no other string, no [None], no
    partly parsed value. *)
Theorem X5_fields_are_numbers_or_na
    (get : request -> http_outcome markup) (stock_name identifier : pystr) :
  let data := fst (scrape_screener_data_minimal get stock_name identifier) in
  numeric_or_na (pe_ratio data) /\ numeric_or_na (interest_cr data).
Proof.
  simpl. unfold scrape_outcome.
  destruct (get (screener_request identifier)) as [e|st content];
    [split; reflexivity|].
  destruct (raise_for_status st); [|split; reflexivity].
  destruct (BeautifulSoup content) as [soup|e]; [|split; reflexivity].
  unfold scrape_soup.
  pose proof (extract_ratio_type soup (pe_ratio no_data) eq_refl) as Hpe.
  destruct (extract_ratio soup (pe_ratio no_data)) as [pe [e|]]; simpl in *.
  - split; [exact Hpe|reflexivity].
  - split; [exact Hpe|apply extract_table_value_type].
Qed.
End FieldType.

Section Pattern.
Context {RT : PyRuntime}.

(** X6. The pattern of the source accepts a text exactly when the text is
    an optional minus, one or more digits, optionally a point and one or
    more digits, optionally followed by one newline: [$] lets a final
    newline through, and a lone sign, a trailing point, a leading point, a
    plus sign or an exponent are refused. *)
Theorem X6_pattern_accepts_strict_decimals (value : pystr) :
  is_valid_number value = true <->
  exists (neg : bool) (ip : pystr) (frac : option pystr) (nl : bool),
    value = written neg ip frac ++ (if nl then [Ch.newline] else [])
    /\ ip <> []
    /\ Forall (fun c => isdecimal c = true) ip
    /\ match frac with
       | Some fp => fp <> [] /\ Forall (fun c => isdecimal c = true) fp
       | None => True
       end.
Proof.
  rewrite is_valid_number_chomp. split.
  - intros [[[neg iv] fv] Hs].
    apply strict_decimal_inv in Hs as (ip & frac & Hw & Hne & Hip & Hfr).
    exists neg, ip, frac.
    assert (Hnl : exists nl : bool,
               value = written neg ip frac ++ (if nl then [Ch.newline] else [])).
    { destruct (chomp_cases value) as [[Hc _]|Hc]; rewrite <- Hw.
      - exists false. rewrite app_nil_r. exact Hc.
      - exists true. exact Hc. }
    destruct Hnl as [nl Hnl]. exists nl.
    split; [exact Hnl|split; [|split]].
    + intros ->. inversion Hip; subst. congruence.
    + eapply digits_of_isdecimal; eauto.
    + destruct frac as [fp|]; simpl in Hfr; auto. destruct Hfr as [Hfne Hfp].
      split; [|eapply digits_of_isdecimal; eauto].
      intros ->. inversion Hfp; subst. congruence.
  - intros (neg & ip & frac & nl & -> & Hne & Hip & Hfr).
    apply isdecimal_digits_of in Hip as [iv Hiv].
    assert (Hivne : iv <> []).
    { intros ->. inversion Hiv; subst. congruence. }
    assert (Hfrac : exists fv, frac_digits frac fv).
    { destruct frac as [fp|]; simpl.
      - destruct Hfr as [Hfne Hfp]. apply isdecimal_digits_of in Hfp as [fv Hfv].
        exists fv. split; auto. intros ->. inversion Hfv; subst. congruence.
      - exists []. reflexivity. }
    destruct Hfrac as [fv Hfv].
    assert (Hch : chomp (written neg ip frac ++ (if nl then [Ch.newline] else []))
                  = written neg ip frac).
    { destruct nl.
      - unfold chomp. rewrite rev_app_distr. simpl. rewrite rev_involutive. reflexivity.
      - rewrite app_nil_r. unfold chomp.
        destruct (written_last neg ip frac iv fv Hivne Hiv Hfv) as (c & d & Hl & Hd).
        destruct (rev (written neg ip frac)) as [|a t] eqn:Hrev; auto.
        assert (Ha : last (written neg ip frac) = Some a).
        { rewrite <- (rev_involutive (written neg ip frac)), Hrev. simpl.
          apply last_snoc. }
        rewrite Ha in Hl. injection Hl as ->.
        destruct (N.eqb_spec c Ch.newline) as [->|]; auto.
        rewrite newline_not_decimal in Hd. discriminate. }
    rewrite Hch. exists (neg, iv, fv). apply strict_decimal_written; auto.
Qed.
End Pattern.

Lemma X6_pattern_witness :
  is_valid_number (RT := Ascii7.runtime) (lit "12.5" ++ [Ch.newline]) = true
  /\ is_valid_number (RT := Ascii7.runtime) (lit "12.") = false
  /\ is_valid_number (RT := Ascii7.runtime) (lit ".5") = false
  /\ is_valid_number (RT := Ascii7.runtime) (lit "+1") = false
  /\ is_valid_number (RT := Ascii7.runtime) (lit "1e5") = false
  /\ is_valid_number (RT := Ascii7.runtime) (lit "-") = false.
Proof.
  split; [|repeat split; reflexivity].
  apply (proj2 (X6_pattern_accepts_strict_decimals (RT := Ascii7.runtime) _)).
  exists false, (lit "12"), (Some (lit "5")), true.
  split; [reflexivity|]. split; [discriminate|].
  split; [repeat constructor|]. split; [discriminate|repeat constructor].
Defined.

(** ** Parsed documents *)

Section DomFacts.
Import Dom.

(** Every node below a node sits at a path that extends the node's own. *)
Lemma descendants_below (nd : node) :
  forall p q n, (q, n) ∈ descendants p nd -> exists r, r <> [] /\ q = p ++ r.
Proof.
  induction nd as [s|name id classes kids IH] using node_induction;
    intros p q n Hin; simpl in Hin.
  - inversion Hin.
  - revert Hin. generalize 0%nat.
    induction IH as [|k ks Hk _ IHks]; intros i Hin.
    + inversion Hin.
    + apply elem_of_cons in Hin as [Heq|Hin].
      * injection Heq as -> ->. exists [i]. split; [discriminate|reflexivity].
      * apply elem_of_app in Hin as [Hin|Hin].
        -- apply Hk in Hin as (r & Hr & ->). exists (i :: r).
           split; [discriminate|]. rewrite <- app_assoc. reflexivity.
        -- eapply IHks; eauto.
Qed.

Lemma search_path (t : tag) keep (found : tag) :
  found ∈ search t keep -> path found <> [].
Proof.
  unfold search. intros Hin. apply list_elem_of_In, in_map_iff in Hin
    as ([q n] & <- & Hin).
  apply filter_In in Hin as [Hin _]. apply list_elem_of_In in Hin.
  apply descendants_below in Hin as (r & Hr & Hq). simpl. rewrite Hq.
  intros Hnil. apply app_eq_nil in Hnil as [_ ?]. congruence.
Qed.

Lemma search_none (t : tag) keep :
  (forall pn, pn ∈ below t -> keep pn = false) -> search t keep = [].
Proof.
  intros Hk. unfold search.
  assert (Hf : List.filter keep (below t) = []).
  { induction (below t) as [|pn l IH]; simpl; auto.
    rewrite (Hk pn) by apply list_elem_of_here.
    apply IH. intros pn' Hin. apply Hk. apply list_elem_of_further. auto. }
  rewrite Hf. reflexivity.
Qed.
End DomFacts.

Section DomTable.
Context {RT : PyRuntime}.
Import Dom.

Lemma profit_loss_row_dom (soup : tag) (row_name : pystr) :
  exists v,
    extract_table_value_body (lib := Dom.soup) soup (lit "profit-loss") row_name
    = Ok v.
Proof.
  unfold extract_table_value_body. simpl.
  destruct (head (search soup _)) as [table|]; simpl; [|eauto].
  destruct (head (search table _)) as [row_td|] eqn:Htd; simpl; [|eauto].
  assert (Hp : path row_td <> []).
  { eapply search_path. apply head_Some_elem_of. exact Htd. }
  destruct (path row_td) as [|i p] eqn:Hpath; [congruence|]. simpl.
  destruct (last (search _ _)) as [cell|]; simpl; [|eauto].
  rewrite float_or_na_numeric_field. eauto.
Qed.

(** X7. On a parsed document the extraction of a row of the profit-and-loss
    table, whatever the row name, never takes its exception path: every
    step of its body succeeds (a cell that was found always has a parent),
    so ["N/A"] only ever comes from a missing table, a missing row or a last
    cell that is no number. *)
Theorem X7_table_extraction_never_faults_on_a_document
    (soup : tag) (row_name : pystr) :
  extract_table_value_body (lib := Dom.soup) soup (lit "profit-loss") row_name
  = Ok (extract_table_value (lib := Dom.soup) soup (lit "profit-loss") row_name).
Proof.
  unfold extract_table_value.
  destruct (profit_loss_row_dom soup row_name) as [v Hv]. rewrite Hv. reflexivity.
Qed.

(** X8. A document without any [table] element gives ["N/A"] for every row
    of the profit-and-loss table, and a document without any [ul] element
    gives ["N/A"] for the P/E ratio, without an exception in either case. *)
Theorem X8_missing_sections_give_na (soup : tag) :
  ((forall pn, pn ∈ below soup -> has_name (lit "table") (snd pn) = false) ->
   forall row_name,
     extract_table_value_body (lib := Dom.soup) soup (lit "profit-loss") row_name
     = Ok NA)
  /\ ((forall pn, pn ∈ below soup -> has_name (lit "ul") (snd pn) = false) ->
      extract_ratio (lib := Dom.soup) soup NA = (NA, None)).
Proof.
  split.
  - intros Hno row_name. unfold extract_table_value_body. simpl.
    rewrite search_none; [reflexivity|].
    intros pn Hin. unfold matches_selector, table_selector, matches_simple. simpl.
    rewrite (Hno pn Hin). reflexivity.
  - intros Hno. unfold extract_ratio. simpl.
    rewrite search_none; [reflexivity|].
    intros pn Hin. unfold matches_selector, ratio_list_selector, matches_simple.
    simpl. rewrite (Hno pn Hin). reflexivity.
Qed.

(** C2. On every parsed document neither extraction raises: the ratio
    block runs to its end and the body of the statement-row extraction
    returns. So nothing is cut short, and each field of the data is what
    its own extraction finds: the P/E ratio that of the ratio list, ["N/A"]
    when it has no entry for it, and the interest that of the statement
    table, ["N/A"] when it has no such row, one whatever the other is. *)
Theorem C2_fields_degrade_independently (soup : tag) :
  snd (extract_ratio (lib := Dom.soup) soup NA) = None
  /\ (exists v,
        extract_table_value_body (lib := Dom.soup) soup (lit "profit-loss")
          (lit "Interest") = Ok v)
  /\ scrape_soup (lib := Dom.soup) soup no_data
     = {| pe_ratio := fst (extract_ratio (lib := Dom.soup) soup NA);
          interest_cr :=
            extract_table_value (lib := Dom.soup) soup (lit "profit-loss")
              (lit "Interest") |}
  /\ fst (extract_ratio (lib := Dom.soup) soup NA)
     = last_match (ratio_entries soup).
Proof.
  assert (Hr : extract_ratio (lib := Dom.soup) soup NA
               = (last_match (ratio_entries soup), None)).
  { unfold extract_ratio, ratio_entries, last_match. simpl.
    destruct (head (search soup (matches_selector (doc soup) ratio_list_selector)))
      as [ul|]; simpl; auto.
    rewrite ratio_loop_dom, fold_entry_step. reflexivity. }
  split; [rewrite Hr; reflexivity|].
  split; [apply profit_loss_row_dom|].
  split; [|rewrite Hr; reflexivity].
  unfold scrape_soup. change (pe_ratio no_data) with NA. rewrite Hr. reflexivity.
Qed.
End DomTable.

Lemma X8_missing_sections_witness :
  let empty := {| Dom.doc := Dom.document [Dom.Text (lit "Page not found")];
                  Dom.path := [] |} in
  extract_table_value_body (RT := Ascii7.runtime) (lib := Example.lib) empty
    (lit "profit-loss") (lit "Interest") = Ok NA
  /\ extract_ratio (RT := Ascii7.runtime) (lib := Example.lib) empty NA = (NA, None).
Proof.
  intros empty.
  assert (Hno : forall nm pn, pn ∈ Dom.below empty -> Dom.has_name nm (snd pn) = false).
  { intros nm pn Hin. apply list_elem_of_singleton in Hin. subst. reflexivity. }
  split.
  - exact (proj1 (X8_missing_sections_give_na (RT := Ascii7.runtime) empty)
             (Hno _) _).
  - exact (proj2 (X8_missing_sections_give_na (RT := Ascii7.runtime) empty) (Hno _)).
Defined.

(** ** Counting what a run does *)

Lemma count_app kind evs1 evs2 :
  count kind (evs1 ++ evs2) = (count kind evs1 + count kind evs2)%nat.
Proof. unfold count. rewrite List.filter_app, length_app. reflexivity. Qed.

Lemma slept_app evs1 evs2 : slept (evs1 ++ evs2) = slept evs1 + slept evs2.
Proof.
  induction evs1 as [|e evs1 IH]; simpl; auto. destruct e; rewrite ?IH; lia.
Qed.

Section Counting.
Context {RT : PyRuntime} {markup tag : Type} {lib : Soup markup tag}
        {PD : Pandas}.
Variable w : world markup.

Lemma row_events_tally index row :
  let n := if blank row then 0%nat else 1%nat in
  count is_get (row_events w index row) = n
  /\ count is_ticker (row_events w index row) = n
  /\ count is_progress (row_events w index row) = 0%nat
  /\ slept (row_events w index row) = Z.of_nat n.
Proof.
  unfold row_events. destruct (blank row); simpl; [repeat split|].
  destruct (yf_warning _); repeat split.
Qed.

Lemma events_from_tally cols total_rows todo : forall index,
  let n := length (results_from w cols index todo) in
  count is_get (events_from w total_rows index todo) = n
  /\ count is_ticker (events_from w total_rows index todo) = n
  /\ count is_progress (events_from w total_rows index todo) = length todo
  /\ slept (events_from w total_rows index todo) = Z.of_nat n.
Proof.
  induction todo as [|row rest IH]; intros index; simpl; [repeat split|].
  destruct (IH (S index)) as (Hg & Ht & Hp & Hs).
  destruct (row_events_tally index row) as (Hg' & Ht' & Hp' & Hs').
  change (EvProgress ?v :: ?l ++ ?r) with ([EvProgress v] ++ l ++ r).
  rewrite !count_app, !slept_app, Hg, Ht, Hp, Hs, Hg', Ht', Hp', Hs'.
  rewrite length_app. unfold row_outcome.
  destruct (blank row); simpl; repeat split; lia.
Qed.

(** X9. A run makes exactly one quote lookup and one page request per
    result row and none for a skipped row, sleeps one second per result
    row and so that many seconds in all, and updates the progress bar once
    per input row, skipped or not. *)
Theorem X9_one_request_and_one_pause_per_result (df : dataframe) :
  lit "Stock Name" ∈ columns df ->
  exists results t evs,
    run w df = Some (Ok (results, t), evs)
    /\ count is_get evs = length results
    /\ count is_ticker evs = length results
    /\ slept evs = Z.of_nat (length results)
    /\ count is_progress evs = length (rows df).
Proof.
  intros Hin. rewrite (run_spec w df Hin). eexists _, _, _.
  split; [reflexivity|].
  destruct (events_from_tally (columns df) (Z.of_nat (length (rows df)))
              (rows df) 0%nat) as (Hg & Ht & Hp & Hs).
  auto.
Qed.
End Counting.

(** ** The two sources do not touch each other's columns *)
Section Isolation.
Context {RT : PyRuntime} {markup tag : Type} {lib : Soup markup tag}
        {PD : Pandas}.

Lemma results_from_pairwise (w1 w2 : world markup) cols
    (R : pydict -> pydict -> Prop) todo :
  (forall i row, R (row_result w1 cols i row) (row_result w2 cols i row)) ->
  forall index,
    Forall2 R (results_from w1 cols index todo) (results_from w2 cols index todo).
Proof.
  intros HR. induction todo as [|row rest IH]; intros index; simpl.
  - constructor.
  - unfold row_outcome. destruct (blank row); simpl; [auto|constructor; auto].
Qed.

(** X10. Two runs over the same frame in worlds that differ only in what
    the market-data provider answers produce the same P/E and interest
    values row by row, and two runs that differ only in what the
    fundamentals site answers produce the same prices and market caps: a
    failure of one source leaves the columns of the other as they are. *)
Theorem X10_sources_are_isolated (w1 w2 : world markup) (df : dataframe) :
  lit "Stock Name" ∈ columns df ->
  exists results1 t1 evs1 results2 t2 evs2,
    run w1 df = Some (Ok (results1, t1), evs1)
    /\ run w2 df = Some (Ok (results2, t2), evs2)
    /\ length results1 = length results2
    /\ ((forall i r, requests_get w1 i r = requests_get w2 i r) ->
        Forall2 same_fundamentals results1 results2)
    /\ ((forall i s, ticker_info w1 i s = ticker_info w2 i s) ->
        Forall2 same_market_data results1 results2).
Proof.
  intros Hin. rewrite (run_spec w1 df Hin), (run_spec w2 df Hin).
  eexists _, _, _, _, _, _. split; [reflexivity|]. split; [reflexivity|].
  split; [|split].
  - eapply Forall2_length.
    apply (results_from_pairwise w1 w2 (columns df) (fun _ _ => True)). auto.
  - intros Hnet. apply results_from_pairwise. intros i row.
    unfold same_fundamentals, row_result. rewrite !compile_result_get.
    unfold row_screener. rewrite Hnet. split; reflexivity.
  - intros Htick. apply results_from_pairwise. intros i row.
    unfold same_market_data, row_result. rewrite !compile_result_get.
    unfold row_market. rewrite Htick. split; reflexivity.
Qed.
End Isolation.

(** ** The keys of a result *)

Lemma dict_mem_keys (k : pystr) (d : pydict) :
  dict_mem k d = true <-> k ∈ List.map fst d.
Proof.
  unfold dict_mem. induction d as [|[k' v] d IH]; simpl.
  - split; [discriminate|intros Hin; inversion Hin].
  - destruct (bool_decide_reflect (k = k')) as [->|Hne].
    + split; auto. intros _. apply list_elem_of_here.
    + rewrite IH. rewrite elem_of_cons. tauto.
Qed.

Lemma dict_set_fresh (k : pystr) (v : pyval) (d : pydict) :
  k ∉ List.map fst d -> dict_set k v d = d ++ [(k, v)].
Proof.
  induction d as [|[k' v'] d IH]; simpl; auto. intros Hn.
  apply not_elem_of_cons in Hn as [Hne Hn].
  rewrite bool_decide_eq_false_2 by auto. rewrite IH; auto.
Qed.

Lemma merge_keys (row : series) (cols : list pystr) : forall d,
  NoDup cols ->
  List.map fst (fold_left (merge_step row) cols d)
  = List.map fst d
    ++ List.filter (fun c => negb (bool_decide (c ∈ List.map fst d))) cols.
Proof.
  induction cols as [|col cols IH]; intros d Hnd; simpl.
  - rewrite app_nil_r. reflexivity.
  - apply NoDup_cons in Hnd as [Hcol Hnd]. rewrite IH by auto.
    unfold merge_step. destruct (dict_mem col d) eqn:Hm.
    + apply dict_mem_keys in Hm. rewrite bool_decide_eq_true_2 by auto.
      reflexivity.
    + assert (Hn : col ∉ List.map fst d).
      { intros Hin. apply dict_mem_keys in Hin. congruence. }
      rewrite bool_decide_eq_false_2 by auto. simpl.
      rewrite dict_set_fresh by auto. rewrite List.map_app. simpl.
      rewrite <- app_assoc. simpl. do 2 f_equal.
      apply filter_ext_in. intros c Hc. f_equal.
      apply bool_decide_ext. rewrite ?List.map_app, elem_of_app. simpl.
      rewrite list_elem_of_singleton.
      split; [|tauto]. intros [Hd| ->]; auto.
      exfalso. apply Hcol. apply list_elem_of_In. auto.
Qed.

(** X11. When the column labels of the frame are distinct, the keys of a
    result are, in insertion order, the six new names followed by the other
    input columns: already the order in which the table is exported, so the
    re-ordering of the columns changes nothing. No key occurs twice. *)
Theorem X11_result_keys_are_in_export_order {PD : Pandas}
    (cols : list pystr) (row : series) (full_symbol : pystr)
    (md : market_data) (sd : screener_data) :
  NoDup cols ->
  let keys := List.map fst (compile_result cols row full_symbol md sd) in
  keys = final_new_cols
         ++ List.filter (fun col => negb (bool_decide (col ∈ final_new_cols))) cols
  /\ NoDup keys
  /\ forall results t,
       export cols results = Some t -> out_columns t = keys.
Proof.
  intros Hnd keys.
  assert (Hk : keys = final_new_cols
         ++ List.filter (fun col => negb (bool_decide (col ∈ final_new_cols))) cols).
  { subst keys. unfold compile_result. fold (merge_step row).
    rewrite merge_keys by auto. reflexivity. }
  split; [exact Hk|]. split.
  - rewrite Hk. apply NoDup_app. split; [|split].
    + unfold final_new_cols. repeat (apply NoDup_cons; split;
        [rewrite ?not_elem_of_cons; repeat split; try discriminate;
         apply not_elem_of_nil|]). apply NoDup_nil_2.
    + intros c Hc Hin. apply list_elem_of_In, filter_In in Hin as [_ Hf].
      apply negb_true_iff, bool_decide_eq_false in Hf. auto.
    + apply NoDup_ListNoDup. apply List.NoDup_filter. apply NoDup_ListNoDup. auto.
  - intros results t Hex. apply export_spec in Hex as [Hc _].
    rewrite Hc, Hk. reflexivity.
Qed.

Lemma X11_result_keys_witness :
  NoDup (columns Example.frame)
  /\ List.map fst (compile_result (columns Example.frame)
                     (Example.series_of []) (lit "NAN.NS")
                     {| current_price := NA; market_cap_value := NA;
                        yf_warning := true |} no_data)
     = [lit "Stock Name"; lit "YF Symbol Used"; lit "Current Price (Rs.)";
        lit "Market Cap (Cr.)"; lit "P/E Ratio"; lit "Interest (Cr.)";
        lit "Sector"].
Proof.
  assert (Hnd : NoDup (columns Example.frame)).
  { unfold Example.frame. simpl.
    repeat (apply NoDup_cons; split;
      [rewrite ?not_elem_of_cons; repeat split; try discriminate;
       apply not_elem_of_nil|]). apply NoDup_nil_2. }
  split; [exact Hnd|].
  rewrite (proj1 (X11_result_keys_are_in_export_order (PD := Example.as_given)
                    (columns Example.frame)
                    (Example.series_of []) (lit "NAN.NS") _ no_data Hnd)).
  reflexivity.
Defined.

(** ** The shape of the exported table *)
Section Shape.
Context {RT : PyRuntime} {markup tag : Type} {lib : Soup markup tag}
        {PD : Pandas}.

Lemma filter_nil_Forall {A} (f : A -> bool) (l : list A) :
  List.filter f l = [] <-> Forall (fun x => f x = false) l.
Proof.
  induction l as [|x l IH]; simpl.
  - split; auto.
  - destruct (f x) eqn:Hf.
    + split; [discriminate|]. intros HF. inversion HF; subst. congruence.
    + rewrite IH. split; [intros; constructor; auto|].
      intros HF. inversion HF; auto.
Qed.

(** X12. The run exports no table at all, rather than an empty one,
    exactly when every row is skipped; otherwise the table is rectangular:
    one row per result, each with one value per column, and six columns
    more than the frame has columns of other names. *)
Theorem X12_exported_table_is_rectangular (w : world markup) (df : dataframe) :
  lit "Stock Name" ∈ columns df ->
  exists results t evs,
    run w df = Some (Ok (results, t), evs)
    /\ (t = None <-> Forall (fun row => blank row = true) (rows df))
    /\ forall tb, t = Some tb ->
         length (out_rows tb) = length results
         /\ Forall (fun values => length values = length (out_columns tb))
                   (out_rows tb)
         /\ length (out_columns tb)
            = (6 + length (List.filter
                     (fun col => negb (bool_decide (col ∈ final_new_cols)))
                     (columns df)))%nat.
Proof.
  intros Hin. rewrite (run_spec w df Hin). eexists _, _, _.
  split; [reflexivity|].
  pose proof (results_from_filter w (columns df) (rows df) 0%nat) as HF.
  apply Forall2_length in HF.
  set (results := results_from w (columns df) 0 (rows df)) in *.
  split.
  - assert (Hb : Forall (fun row => blank row = true) (rows df)
                 <-> List.filter (fun row => negb (blank row)) (rows df) = []).
    { rewrite filter_nil_Forall. apply Forall_iff. intros row.
      destruct (blank row); simpl; split; congruence. }
    rewrite Hb. unfold export. destruct results as [|d ds].
    + split; auto. intros _. apply length_zero_iff_nil. auto.
    + split; [discriminate|]. intros Hnil. rewrite Hnil in HF. discriminate.
  - intros tb Hex. apply export_spec in Hex as [Hc Hr].
    rewrite Hc, Hr. split; [rewrite length_map; apply length_seq|]. split.
    + apply List.Forall_forall. intros values Hv.
      apply in_map_iff in Hv as (i & <- & _). unfold row_of.
      rewrite !length_map. reflexivity.
    + rewrite length_app. reflexivity.
Qed.
End Shape.

(** ** The range of the progress values *)

Lemma one_is : f64 1 = S754_finite false 4503599627370496 (-52).
Proof. vm_compute. reflexivity. Qed.

Lemma finite_le_one m e :
  0 < m -> (e < -52 \/ (e = -52 /\ m <= 2 ^ 52)) ->
  SFleb (S754_finite false (Z.to_pos m) e) (f64 1) = true.
Proof.
  intros Hm He. rewrite one_is. unfold SFleb, SFcompare.
  destruct He as [He|[-> Hle]].
  - rewrite (proj2 (Z.compare_lt_iff e (-52)) He). reflexivity.
  - rewrite Z.compare_refl.
    assert (Hp : (Z.to_pos m <= 4503599627370496)%positive).
    { change (2 ^ 52) with 4503599627370496 in Hle. lia. }
    destruct (Pos.compare_cont Eq (Z.to_pos m) 4503599627370496) eqn:Hc;
      try reflexivity.
    exfalso. apply Hp. exact Hc.
Qed.

Lemma nearest_in_unit_range a b :
  0 < a -> a <= b -> b < 2 ^ 53 -> in_unit_range (Float.nearest false a b).
Proof.
  intros Ha Hab Hb.
  destruct (FloatFacts.nearest_unit a b Ha Hab Hb)
    as (s & m & Hs & Hle & Hlt & Hm & Hr & ->).
  change (2 ^ 53) with 9007199254740992 in *.
  change (2 ^ 52) with 4503599627370496 in *.
  destruct (Z.eqb_spec m 9007199254740992) as [Hm53|Hm53].
  - (* rounded up to the next power of two *)
    assert (Hs1 : 1 <= s).
    { destruct (Z.eq_dec s 0) as [->|]; [|lia]. exfalso.
      change (2 ^ 0) with 1 in Hle. assert (a = b) by lia. subst b.
      change (2 ^ (0 + 52)) with 4503599627370496 in Hm.
      pose proof (FloatFacts.rne_bounds (a * 4503599627370496) a
                    ltac:(lia) ltac:(lia)) as Hbd.
      rewrite <- Hm in Hbd. nia. }
    split; [reflexivity|]. apply finite_le_one; [reflexivity|].
    change (2 ^ 52) with 4503599627370496. lia.
  - split; [reflexivity|]. apply finite_le_one; [lia|].
    destruct (Z.eq_dec s 0) as [->|]; [|lia]. right. split; [lia|].
    change (2 ^ 0) with 1 in Hle. assert (a = b) by lia. subst b.
    change (2 ^ (0 + 52)) with 4503599627370496 in Hm.
    pose proof (FloatFacts.rne_bounds (a * 4503599627370496) a
                  ltac:(lia) ltac:(lia)) as Hbd.
    rewrite <- Hm in Hbd. change (2 ^ 52) with 4503599627370496. nia.
Qed.

Lemma nearest_one a : 0 < a -> a < 2 ^ 53 -> Float.nearest false a a = f64 1.
Proof.
  intros Ha Hb.
  destruct (FloatFacts.nearest_unit a a Ha ltac:(lia) Hb)
    as (s & m & Hs & Hle & Hlt & Hm & Hr & ->).
  assert (s = 0) as ->.
  { destruct (Z.eq_dec s 0); auto. specialize (Hlt ltac:(lia)).
    assert (0 < 2 ^ (s - 1)) by (apply Z.pow_pos_nonneg; lia). nia. }
  change (2 ^ (0 + 52)) with 4503599627370496 in Hm.
  pose proof (FloatFacts.rne_bounds (a * 4503599627370496) a
                ltac:(lia) ltac:(lia)) as Hbd.
  rewrite <- Hm in Hbd.
  assert (m = 4503599627370496) as -> by nia.
  rewrite one_is. reflexivity.
Qed.

Section ProgressRange.
Context {RT : PyRuntime} {markup tag : Type} {lib : Soup markup tag}
        {PD : Pandas}.

(** X13. For a frame of fewer than [2^53] rows every progress value of the
    run is above 0.0 and at most 1.0, the range the progress bar accepts,
    and the last one is exactly 1.0. *)
Theorem X13_progress_stays_in_range (w : world markup) (df : dataframe) :
  lit "Stock Name" ∈ columns df ->
  Z.of_nat (length (rows df)) < 2 ^ 53 ->
  exists out evs,
    run w df = Some (Ok out, evs)
    /\ Forall in_unit_range (progress_values evs)
    /\ (rows df <> [] -> last (progress_values evs) = Some (f64 1)).
Proof.
  intros Hin Hlen. rewrite (run_spec w df Hin). eexists _, _.
  split; [reflexivity|]. rewrite progress_values_events. split.
  - apply List.Forall_forall. intros v Hv.
    apply in_map_iff in Hv as (i & <- & Hi). apply in_seq in Hi.
    unfold progress_at. apply nearest_in_unit_range; lia.
  - intros Hne. destruct (rows df) as [|row rest] eqn:Hrows; [congruence|].
    cbn [length]. rewrite seq_S, List.map_app. simpl.
    rewrite last_snoc. f_equal. unfold progress_at.
    match goal with
    | |- Float.nearest false ?a ?b = _ =>
        replace b with a by (cbn [length]; lia)
    end.
    apply nearest_one; cbn [length] in Hlen; lia.
Qed.
End ProgressRange.

(** ** Market data *)

Lemma market_cap_type (raw : pyval) :
  match fst (market_cap raw) with
  | PyFloat _ => True
  | v => v = NA
  end.
Proof.
  unfold market_cap. destruct (is_int_or_float raw); [|reflexivity].
  destruct (div_ten_million raw); simpl; auto.
Qed.

(** X14. Whatever the provider does, the market cap is ["N/A"] or a float.
    The warning is shown exactly when the provider raised or the
    [marketCap] entry is a number whose division overflowed, never for a
    missing or non-numeric entry. The market cap depends on the [marketCap]
    entry of the snapshot alone: putting another price into the snapshot
    changes the price returned and nothing else. *)
Theorem X14_market_cap_depends_on_its_entry_alone
    (info : result (gmap pystr pyval)) :
  let md := fetch_market_data info in
  match market_cap_value md with PyFloat _ => True | v => v = NA end
  /\ (yf_warning md = true <->
      (exists e, info = Raise e)
      \/ exists data_yf raw,
           info = Ok data_yf /\ data_yf !! lit "marketCap" = Some raw
           /\ is_int_or_float raw = true /\ div_ten_million raw = None)
  /\ forall data_yf price,
       info = Ok data_yf ->
       let md' :=
         fetch_market_data (Ok (<[lit "currentPrice" := price]> data_yf)) in
       market_cap_value md' = market_cap_value md
       /\ yf_warning md' = yf_warning md
       /\ current_price md' = price.
Proof.
  intros md. subst md. destruct info as [data_yf|e].
  - unfold fetch_market_data.
    pose proof (market_cap_type (default NA (data_yf !! lit "marketCap"))) as Ht.
    destruct (market_cap (default NA (data_yf !! lit "marketCap")))
      as [cap failed] eqn:Hm.
    simpl in *. split; [exact Ht|]. split.
    + split.
      * intros ->. right. unfold market_cap in Hm.
        destruct (data_yf !! lit "marketCap") as [raw|] eqn:Hraw; simpl in Hm;
          [|discriminate].
        exists data_yf, raw. destruct (is_int_or_float raw); [|discriminate].
        destruct (div_ten_million raw); [discriminate|]. auto.
      * intros [[e He]|(d & raw & Hd & Hraw & Hn & Hdiv)]; [discriminate|].
        injection Hd as <-. rewrite Hraw in Hm. simpl in Hm.
        unfold market_cap in Hm. rewrite Hn, Hdiv in Hm. congruence.
    + intros d price [= <-].
      rewrite lookup_insert_eq.
      rewrite lookup_insert_ne by discriminate.
      rewrite Hm. simpl. auto.
  - simpl. split; [reflexivity|]. split.
    + split; [eauto|reflexivity].
    + intros d price Hd. discriminate.
Qed.

Lemma X14_market_cap_witness :
  let data_yf : gmap pystr pyval := <[lit "marketCap" := PyInt 123456789]> ∅ in
  let md := fetch_market_data (Ok data_yf) in
  let md' :=
    fetch_market_data (Ok (<[lit "currentPrice" := PyFloat (f64 101.5)]> data_yf)) in
  market_cap_value md' = market_cap_value md
  /\ yf_warning md' = yf_warning md
  /\ current_price md' = PyFloat (f64 101.5).
Proof.
  intros data_yf.
  exact (proj2 (proj2 (X14_market_cap_depends_on_its_entry_alone (Ok data_yf)))
           data_yf (PyFloat (f64 101.5)) eq_refl).
Defined.

(** ** Witnesses on the concrete inputs *)
Section ConcreteRuns.
Import Example.

Lemma X9_one_request_witness :
  (lit "Stock Name" ∈ columns frame)
  /\ exists results t evs,
       run (RT := Ascii7.runtime) (lib := lib) (PD := as_given) online frame
       = Some (Ok (results, t), evs)
       /\ count is_get evs = length results
       /\ slept evs = Z.of_nat (length results).
Proof.
  split; [exact frame_has_name|].
  destruct (X9_one_request_and_one_pause_per_result (RT := Ascii7.runtime)
              (lib := lib) (PD := as_given) online frame frame_has_name)
    as (results & t & evs & Hrun & Hg & _ & Hs & _).
  exists results, t, evs. auto.
Defined.

Lemma X10_sources_are_isolated_witness :
  let page_down :=
    {| ticker_info := ticker_info online;
       requests_get := requests_get offline |} in
  (lit "Stock Name" ∈ columns frame)
  /\ (forall i s, ticker_info online i s = ticker_info page_down i s)
  /\ exists results1 t1 evs1 results2 t2 evs2,
       run (RT := Ascii7.runtime) (lib := lib) (PD := as_given) online frame
       = Some (Ok (results1, t1), evs1)
       /\ run (RT := Ascii7.runtime) (lib := lib) (PD := as_given) page_down frame
          = Some (Ok (results2, t2), evs2)
       /\ Forall2 same_market_data results1 results2
       /\ length results1 = length results2.
Proof.
  intros page_down. split; [exact frame_has_name|].
  assert (Ht : forall i s, ticker_info online i s = ticker_info page_down i s)
    by reflexivity.
  split; [exact Ht|].
  destruct (X10_sources_are_isolated (RT := Ascii7.runtime) (lib := lib)
              (PD := as_given) online page_down frame frame_has_name)
    as (r1 & t1 & e1 & r2 & t2 & e2 & Hrun1 & Hrun2 & Hlen & _ & Hm).
  exists r1, t1, e1, r2, t2, e2.
  split; [exact Hrun1|]. split; [exact Hrun2|]. split; [exact (Hm Ht)|exact Hlen].
Defined.

Lemma X12_exported_table_witness :
  (lit "Stock Name" ∈ columns frame)
  /\ exists results t evs,
       run (RT := Ascii7.runtime) (lib := lib) (PD := as_given) online frame
       = Some (Ok (results, t), evs)
       /\ (t = None <-> Forall (fun row => blank (RT := Ascii7.runtime) row = true)
                               (rows frame)).
Proof.
  split; [exact frame_has_name|].
  destruct (X12_exported_table_is_rectangular (RT := Ascii7.runtime) (lib := lib)
              (PD := as_given) online frame frame_has_name)
    as (results & t & evs & Hrun & Hnone & _).
  exists results, t, evs. auto.
Defined.

Lemma X13_progress_witness :
  (lit "Stock Name" ∈ columns frame)
  /\ Z.of_nat (length (rows frame)) < 2 ^ 53
  /\ exists out evs,
       run (RT := Ascii7.runtime) (lib := lib) (PD := as_given) online frame = Some (Ok out, evs)
       /\ last (progress_values evs) = Some (f64 1).
Proof.
  split; [exact frame_has_name|]. split; [exact frame_is_short|].
  destruct (X13_progress_stays_in_range (RT := Ascii7.runtime) (lib := lib)
              (PD := as_given) online frame frame_has_name frame_is_short)
    as (out & evs & Hrun & _ & Hlast).
  exists out, evs. split; [exact Hrun|]. apply Hlast. discriminate.
Defined.
End ConcreteRuns.
